(** * MCQ batch scoring: a shallow embedding of [mcq_analysis.py]

    The development models the scoring core of the backend: the grade
    calculator ([calculate_grade]), the sheet scorer
    ([analyze_single_mcq_sheet]), the batch aggregator
    ([generate_batch_summary]), the plan limiter ([get_mcq_limit]), the
    orchestration of the [/analyze-mcq-batch] endpoint ([analyze_mcq_batch])
    and the [/upload-answer-key] endpoint ([upload_answer_key]).

    Modelling choices, all of them about the Python runtime and none about
    the program's own logic:
    - Python strings are [string]; [str.upper] and [str.lower] act on the
      ASCII letters;
    - Python floats are exact rationals ([Q]); [round(x, 2)] rounds the
      exact value half to even; equalities between rationals are stated
      with [==] where the two sides are not the same fraction;
    - an exception is a value of [Py.exn] carried by the error monad
      [Py.outcome]; the text of an exception is not modelled;
    - a JSON object is a [gmap string json]; a student sheet is any JSON
      value, the answer key is a list whose entries are dicts or any other
      value, and the plan of a request is a string;
    - [uuid.uuid4()] and [datetime.now()] are arguments of the endpoint;
    - the endpoint returns, next to its response, the list of the calls it
      made to the sheet scorer. *)

From Stdlib Require Import Ascii QArith Qround Sorted Lqa.
From stdpp Require Import gmap strings list fin_maps pretty.

Set Warnings "-register-all".

(* ===================================================================== *)
(** * The Python runtime the program relies on *)
(* ===================================================================== *)

Module Py.

(** The exceptions the scoring code can meet. *)
Inductive exn :=
| AttributeError     (* value.upper() on a value that is not a str *)
| TypeError          (* len() of None, a boolean or a number *)
| IndexError         (* sequence[i] out of range *)
| ZeroDivisionError  (* x / 0 *)
| ValueError.        (* max() or min() of an empty sequence *)

(** A computation either returns or raises. *)
Inductive outcome (A : Type) :=
| Returns (a : A)
| Raises (e : exn).
Arguments Returns {A} a.
Arguments Raises {A} e.

Definition bind {A B} (m : outcome A) (k : A -> outcome B) : outcome B :=
  match m with
  | Returns a => k a
  | Raises e => Raises e
  end.

Definition returns {A} (m : outcome A) : Prop := exists a, m = Returns a.

(** [for x in xs: ...] with a body that may raise. *)
Fixpoint for_each {A B} (f : A -> outcome B) (xs : list A) : outcome (list B) :=
  match xs with
  | [] => Returns []
  | x :: rest =>
      bind (f x) (fun y => bind (for_each f rest) (fun ys => Returns (y :: ys)))
  end.

(** [str.upper] and [str.lower]. *)
Definition upper_char (c : ascii) : ascii :=
  let n := nat_of_ascii c in
  if (97 <=? n)%nat && (n <=? 122)%nat then ascii_of_nat (n - 32) else c.

Definition lower_char (c : ascii) : ascii :=
  let n := nat_of_ascii c in
  if (65 <=? n)%nat && (n <=? 90)%nat then ascii_of_nat (n + 32) else c.

Fixpoint upper (s : string) : string :=
  match s with
  | EmptyString => EmptyString
  | String c rest => String (upper_char c) (upper rest)
  end.

Fixpoint lower (s : string) : string :=
  match s with
  | EmptyString => EmptyString
  | String c rest => String (lower_char c) (lower rest)
  end.

(** [a / b] on numbers: true division. *)
Definition truediv (a b : Q) : outcome Q :=
  if Qeq_bool b 0 then Raises ZeroDivisionError else Returns (a / b)%Q.

(** An int seen as a number. *)
Definition of_nat (n : nat) : Q := inject_Z (Z.of_nat n).

(** [round(x, 2)]: the nearest multiple of 1/100, ties to the even one. *)
Definition round_half_even (x : Q) : Z :=
  let f := Qfloor x in
  match (x - inject_Z f ?= 1 # 2)%Q with
  | Lt => f
  | Gt => (f + 1)%Z
  | Eq => if Z.even f then f else (f + 1)%Z
  end.

Definition round2 (x : Q) : Q :=
  (inject_Z (round_half_even (x * 100)) / 100)%Q.

(** [sum(xs)], [max(xs)] and [min(xs)] of ints. *)
Definition sum (xs : list nat) : nat := fold_left Nat.add xs 0.

Definition max (xs : list nat) : outcome nat :=
  match xs with
  | [] => Raises ValueError
  | x :: rest => Returns (fold_left (fun m y => if (m <? y)%nat then y else m) rest x)
  end.

Definition min (xs : list nat) : outcome nat :=
  match xs with
  | [] => Raises ValueError
  | x :: rest => Returns (fold_left (fun m y => if (y <? m)%nat then y else m) rest x)
  end.

(** [str(n)] of a non-negative int. *)
Definition str_of_nat (n : nat) : string := pretty n.

End Py.

Import Py.

Declare Scope py_scope.
Delimit Scope py_scope with py.
Notation "x <- m ;; k" := (Py.bind m (fun x => k))
  (at level 100, m at next level, right associativity) : py_scope.
Open Scope py_scope.

(* ===================================================================== *)
(** * Data model *)
(* ===================================================================== *)

(** A value decoded from the JSON body of a request. *)
Inductive json :=
| JNull
| JBool (b : bool)
| JNum (q : Q)
| JStr (s : string)
| JArr (items : list json)
| JObj (fields : gmap string json).

(** An entry of the answer key. The scorer tells a dict from every other
    value, and of a value that is not a dict it only ever takes [str(value)]:
    [KeyPlain] carries that text ("B" for the string "B", "3" for the
    number 3, "None" for null). *)
Inductive key_entry :=
| KeyDict (fields : gmap string json)
| KeyPlain (shown : string).

(** An entry of [mistakes]. *)
Module Mistake.
Inductive kind := Incorrect | Unanswered.

Record t := mk {
  question_number : nat;
  type : kind;
  student_answer : string;
  correct_answer : string;
  explanation : string
}.
End Mistake.

(** The dict returned by [analyze_single_mcq_sheet]. *)
Module SheetResult.
Record t := mk {
  student_id : nat;
  score : nat;
  total_questions : nat;
  score_percentage : Q;
  correct_answers : nat;
  wrong_answers : nat;
  unanswered : nat;
  mistakes : list Mistake.t;
  grade : string
}.
End SheetResult.

(** The dict the endpoint stores for a sheet whose scoring raised. The
    [error] field stands for the text
    [f'Failed to analyze sheet {idx + 1}: {str(e)}']: the sheet number and
    the exception. *)
Module ErrorEntry.
Record t := mk {
  student_id : nat;
  error : nat * Py.exn;
  score : nat;
  total_questions : nat
}.
End ErrorEntry.

(** An element of [results]. *)
Inductive result :=
| Scored (r : SheetResult.t)
| Failed (e : ErrorEntry.t).

(** [result.get('score')] and [result.get('grade')]: [None] when the dict
    has no such key. *)
Definition get_score (r : result) : option nat :=
  match r with
  | Scored s => Some (SheetResult.score s)
  | Failed e => Some (ErrorEntry.score e)
  end.

Definition get_grade (r : result) : option string :=
  match r with
  | Scored s => Some (SheetResult.grade s)
  | Failed _ => None
  end.

Definition get_student_id (r : result) : nat :=
  match r with
  | Scored s => SheetResult.student_id s
  | Failed e => ErrorEntry.student_id e
  end.

(** An entry of [question_analysis]. *)
Module QuestionStat.
Record t := mk {
  question_number : nat;
  correct_responses : nat;
  incorrect_responses : nat;
  success_rate : Q;
  difficulty : string
}.
End QuestionStat.

(** The dict returned by [generate_batch_summary] for a non-empty batch. *)
Module BatchSummary.
Record t := mk {
  total_students : nat;
  total_questions : nat;
  average_score : Q;
  average_percentage : Q;
  highest_score : nat;
  lowest_score : nat;
  grade_distribution : gmap string nat;
  question_analysis : list QuestionStat.t
}.
End BatchSummary.

(** What [generate_batch_summary] returns: [{}] or the full dict. *)
Inductive summary :=
| EmptySummary
| Summary (b : BatchSummary.t).

(* ===================================================================== *)
(** * Grade calculator and plan limiter *)
(* ===================================================================== *)

(** [x >= y] and [x > y] on numbers. *)
Definition ge_num (x y : Q) : bool := Qle_bool y x.
Definition gt_num (x y : Q) : bool := negb (Qle_bool x y).

Definition calculate_grade (percentage : Q) : string :=
  if ge_num percentage 90 then "A+"
  else if ge_num percentage 85 then "A"
  else if ge_num percentage 80 then "A-"
  else if ge_num percentage 75 then "B+"
  else if ge_num percentage 70 then "B"
  else if ge_num percentage 65 then "B-"
  else if ge_num percentage 60 then "C+"
  else if ge_num percentage 55 then "C"
  else if ge_num percentage 50 then "C-"
  else if ge_num percentage 45 then "D"
  else "F".

Definition limits : gmap string nat :=
  {[ "free" := 0; "basic" := 0; "standard" := 200; "premium" := 500 ]}.

Definition get_mcq_limit (plan : string) : nat :=
  default 0 (limits !! lower plan).

(* ===================================================================== *)
(** * Sheet scorer *)
(* ===================================================================== *)

(** [value.upper()]: only a str has the method. *)
Definition call_upper (value : json) : outcome string :=
  match value with
  | JStr s => Returns (upper s)
  | _ => Raises AttributeError
  end.

(** [sequence[i]]. *)
Definition item (items : list json) (i : nat) : outcome json :=
  match items !! i with
  | Some v => Returns v
  | None => Raises IndexError
  end.

Definition char_at (s : string) (i : nat) : outcome json :=
  match String.get i s with
  | Some c => Returns (JStr (String c EmptyString))
  | None => Raises IndexError
  end.

(** The value whose [.upper()] gives [student_answer] (line 138): the dict
    lookup with default [''], or the guarded index into a sequence. A sheet
    that is neither a dict nor a sequence has no [len()]. *)
Definition student_value (student_answers : json) (i : nat) : outcome json :=
  match student_answers with
  | JObj d => Returns (default (JStr "") (d !! str_of_nat (i + 1)))
  | JArr items => if i <? length items then item items i else Returns (JStr "")
  | JStr s => if i <? String.length s then char_at s i else Returns (JStr "")
  | JNull | JBool _ | JNum _ => Raises TypeError
  end.

(** The value whose [.upper()] gives [correct] (line 139): the
    ['correct_answer'] field of a dict entry, the entry itself when the
    field is missing, and [str(entry)] otherwise. *)
Definition correct_value (correct_answer : key_entry) : json :=
  match correct_answer with
  | KeyDict d => default (JObj d) (d !! "correct_answer")
  | KeyPlain shown => JStr shown
  end.

(** The four accumulators of the scoring loop. *)
Module Tally.
Record t := mk {
  correct_answers : nat;
  wrong_answers : nat;
  unanswered : nat;
  mistakes : list Mistake.t
}.
Definition zero : t := mk 0 0 0 [].
End Tally.

(** One iteration of the loop over [enumerate(answer_key)]. *)
Definition score_question (student_answers : json) (i : nat)
    (correct_answer : key_entry) (acc : Tally.t) : outcome Tally.t :=
  let question_num := i + 1 in
  raw <- student_value student_answers i ;;
  student_answer <- call_upper raw ;;
  correct <- call_upper (correct_value correct_answer) ;;
  if bool_decide (student_answer = "") then
    Returns (Tally.mk
      (Tally.correct_answers acc)
      (Tally.wrong_answers acc)
      (Tally.unanswered acc + 1)
      (Tally.mistakes acc ++
        [Mistake.mk question_num Mistake.Unanswered "" correct
          ("Question " +:+ str_of_nat question_num +:+ " was not answered")]))
  else if bool_decide (student_answer = correct) then
    Returns (Tally.mk
      (Tally.correct_answers acc + 1)
      (Tally.wrong_answers acc)
      (Tally.unanswered acc)
      (Tally.mistakes acc))
  else
    Returns (Tally.mk
      (Tally.correct_answers acc)
      (Tally.wrong_answers acc + 1)
      (Tally.unanswered acc)
      (Tally.mistakes acc ++
        [Mistake.mk question_num Mistake.Incorrect student_answer correct
          ("Question " +:+ str_of_nat question_num +:+ ": Selected " +:+
           student_answer +:+ ", correct answer is " +:+ correct)])).

(** The loop, from index [i] on. *)
Fixpoint score_questions (student_answers : json) (i : nat)
    (answer_key : list key_entry) (acc : Tally.t) : outcome Tally.t :=
  match answer_key with
  | [] => Returns acc
  | correct_answer :: rest =>
      acc' <- score_question student_answers i correct_answer acc ;;
      score_questions student_answers (S i) rest acc'
  end.

Definition analyze_single_mcq_sheet (student_answers : json)
    (answer_key : list key_entry) (student_id : nat) : outcome SheetResult.t :=
  acc <- score_questions student_answers 0 answer_key Tally.zero ;;
  let correct_answers := Tally.correct_answers acc in
  let total_questions := length answer_key in
  score_percentage <-
    (if 0 <? total_questions then
       ratio <- truediv (of_nat correct_answers) (of_nat total_questions) ;;
       Returns (ratio * 100)%Q
     else Returns 0%Q) ;;
  Returns (SheetResult.mk
    student_id
    correct_answers
    total_questions
    (round2 score_percentage)
    correct_answers
    (Tally.wrong_answers acc)
    (Tally.unanswered acc)
    (Tally.mistakes acc)
    (calculate_grade score_percentage)).

(* ===================================================================== *)
(** * Batch aggregator *)
(* ===================================================================== *)

(** The scores and grades the aggregator reads, with the defaults of
    [result.get('score', 0)] and [result.get('grade', 'F')]. *)
Definition score_or_0 (r : result) : nat := default 0 (get_score r).
Definition grade_or_F (r : result) : string := default "F" (get_grade r).

(** The loop that fills [grade_distribution]. *)
Definition count_grade (grade_distribution : gmap string nat) (r : result)
    : gmap string nat :=
  let grade := grade_or_F r in
  <[grade := default 0 (grade_distribution !! grade) + 1]> grade_distribution.

Definition grade_counts (results : list result) : gmap string nat :=
  fold_left count_grade results ∅.

(** The inner loop of the question-wise analysis: [correct_count]. *)
Definition count_correct (i : nat) (results : list result) : nat :=
  fold_left
    (fun correct_count r => if i <? score_or_0 r then correct_count + 1 else correct_count)
    results 0.

(** One iteration of the loop over [range(total_questions)]. The three
    divisions by [total_students] are not guarded in the source. *)
Definition question_stat (results : list result) (total_students i : nat)
    : outcome QuestionStat.t :=
  let question_num := i + 1 in
  let correct_count := count_correct i results in
  difficulty <-
    (rate <- truediv (of_nat correct_count) (of_nat total_students) ;;
     if gt_num rate (8 # 10) then Returns "Easy"
     else
       rate' <- truediv (of_nat correct_count) (of_nat total_students) ;;
       if gt_num rate' (5 # 10) then Returns "Medium" else Returns "Hard") ;;
  rate <- truediv (of_nat correct_count) (of_nat total_students) ;;
  Returns (QuestionStat.mk
    question_num
    correct_count
    (total_students - correct_count)
    (round2 (rate * 100))
    difficulty).

Definition generate_batch_summary (results : list result)
    (answer_key : list key_entry) : outcome summary :=
  match results with
  | [] => Returns EmptySummary
  | _ :: _ =>
      let total_students := length results in
      let total_questions := length answer_key in
      let total_score := Py.sum (map score_or_0 results) in
      average_score <-
        (if 0 <? total_students
         then truediv (of_nat total_score) (of_nat total_students)
         else Returns 0%Q) ;;
      average_percentage <-
        (if 0 <? total_questions then
           ratio <- truediv average_score (of_nat total_questions) ;;
           Returns (ratio * 100)%Q
         else Returns 0%Q) ;;
      let grade_distribution := grade_counts results in
      question_analysis <-
        for_each (question_stat results total_students) (seq 0 total_questions) ;;
      highest_score <- Py.max (map score_or_0 results) ;;
      lowest_score <- Py.min (map score_or_0 results) ;;
      Returns (Summary (BatchSummary.mk
        total_students
        total_questions
        (round2 average_score)
        (round2 average_percentage)
        highest_score
        lowest_score
        grade_distribution
        question_analysis))
  end.

(** [summary.get(...)] on what the aggregator returned. *)
Definition summary_average_score (s : summary) : option Q :=
  match s with
  | EmptySummary => None
  | Summary b => Some (BatchSummary.average_score b)
  end.

(* ===================================================================== *)
(** * The batch endpoint *)
(* ===================================================================== *)

(** The JSON body of a batch request, field by field; [None] is a key the
    body does not have (all four are [None] for an empty or absent body).
    The answer key is a list and the plan a string, as the endpoint expects
    them. *)
Module Request.
Record t := mk {
  answer_key_id : option json;
  student_answers : option json;
  answer_key : option (list key_entry);
  user_plan : option string
}.
End Request.

(** The body of a successful response. [analysis_id] and [timestamp] come
    from [uuid.uuid4()] and [datetime.now()]. *)
Module BatchResponse.
Record t := mk {
  analysis_id : string;
  answer_key_id : json;
  total_sheets_analyzed : nat;
  timestamp : string;
  summary : summary;
  individual_results : list result
}.
End BatchResponse.

Inductive response :=
| Ok200 (body : BatchResponse.t)
| Error400 (error : string)
| Error500 (error : Py.exn).

(** The message of the plan-limit failure. *)
Definition limit_message (user_plan : string) (max_analyses submitted : nat) : string :=
  "Your " +:+ user_plan +:+ " plan allows maximum " +:+ str_of_nat max_analyses +:+
  " MCQ analyses. You submitted " +:+ str_of_nat submitted +:+ ".".

(** What the [try]/[except] around one sheet appends to [results]. *)
Definition score_sheet (answer_key : list key_entry) (idx : nat)
    (student_sheet : json) : result :=
  match analyze_single_mcq_sheet student_sheet answer_key (idx + 1) with
  | Returns analysis_result => Scored analysis_result
  | Raises e =>
      Failed (ErrorEntry.mk (idx + 1) (idx + 1, e) 0 (length answer_key))
  end.

(** The loop over [enumerate(student_answers)], from index [idx] on. Next
    to [results] it keeps [calls], the [student_id] of every call made to
    [analyze_single_mcq_sheet]. *)
Fixpoint score_sheets (answer_key : list key_entry) (idx : nat)
    (student_answers : list json) (results : list result) (calls : list nat)
    : list result * list nat :=
  match student_answers with
  | [] => (results, calls)
  | student_sheet :: rest =>
      score_sheets answer_key (S idx) rest
        (results ++ [score_sheet answer_key idx student_sheet])
        (calls ++ [idx + 1])
  end.

(** The endpoint: the response, and the calls made to the sheet scorer. *)
Definition analyze_mcq_batch (analysis_id timestamp : string) (data : Request.t)
    : response * list nat :=
  match Request.answer_key_id data, Request.student_answers data with
  | Some answer_key_id, Some student_answers =>
      let answer_key := default [] (Request.answer_key data) in
      match answer_key with
      | [] => (Error400 "Answer key is required", [])
      | _ :: _ =>
          match student_answers with
          | JArr sheets =>
              let user_plan := default "free" (Request.user_plan data) in
              let max_analyses := get_mcq_limit user_plan in
              if max_analyses <? length sheets then
                (Error400 (limit_message user_plan max_analyses (length sheets)), [])
              else
                let '(results, calls) := score_sheets answer_key 0 sheets [] [] in
                match generate_batch_summary results answer_key with
                | Returns summary =>
                    (Ok200 (BatchResponse.mk analysis_id answer_key_id
                              (length results) timestamp summary results),
                     calls)
                | Raises e => (Error500 e, calls)
                end
          | _ => (Error400 "Student answers must be a list", [])
          end
      end
  | _, _ => (Error400 "Answer key ID and student answers are required", [])
  end.

(* ===================================================================== *)
(** * Vocabulary of the specification *)
(* ===================================================================== *)

#[global] Instance kind_eq_dec : EqDecision Mistake.kind.
Proof. solve_decision. Defined.

(** The student's answer for question [i + 1] is the string [s]. *)
Definition student_says (student_answers : json) (i : nat) (s : string) : Prop :=
  match student_answers with
  | JObj d => d !! str_of_nat (i + 1) = Some (JStr s)
  | JArr items => items !! i = Some (JStr s)
  | JStr t => exists c, String.get i t = Some c /\ s = String c EmptyString
  | JNull | JBool _ | JNum _ => False
  end.

(** The student's answer for question [i + 1] is empty or missing. *)
Definition no_answer (student_answers : json) (i : nat) : Prop :=
  match student_answers with
  | JObj d =>
      d !! str_of_nat (i + 1) = None \/ d !! str_of_nat (i + 1) = Some (JStr "")
  | JArr items => length items <= i \/ items !! i = Some (JStr "")
  | JStr t => String.length t <= i
  | JNull | JBool _ | JNum _ => False
  end.

(** The correct answer the key entry [k] gives is the string [c]. *)
Definition key_says (k : key_entry) (c : string) : Prop :=
  match k with
  | KeyDict d => d !! "correct_answer" = Some (JStr c)
  | KeyPlain shown => shown = c
  end.

(** The student's answer for question [i + 1] matches the entry [k] of the
    key, letter case aside. *)
Definition matches (student_answers : json) (i : nat) (k : key_entry) : Prop :=
  exists s c, student_says student_answers i s /\ key_says k c /\ upper s = upper c.

(** The number of mistakes of a kind. *)
Definition count_kind (kind : Mistake.kind) (mistakes : list Mistake.t) : nat :=
  length (filter (fun m => Mistake.type m = kind) mistakes).

(** The question numbers of the mistakes, in the order of the list. *)
Definition numbers (mistakes : list Mistake.t) : list nat :=
  map Mistake.question_number mistakes.

(** The table of the grade calculator, in the words of the specification. *)
Inductive grade_of (p : Q) : string -> Prop :=
| grade_A_plus : (90 <= p)%Q -> grade_of p "A+"
| grade_A : (85 <= p)%Q -> (p < 90)%Q -> grade_of p "A"
| grade_A_minus : (80 <= p)%Q -> (p < 85)%Q -> grade_of p "A-"
| grade_B_plus : (75 <= p)%Q -> (p < 80)%Q -> grade_of p "B+"
| grade_B : (70 <= p)%Q -> (p < 75)%Q -> grade_of p "B"
| grade_B_minus : (65 <= p)%Q -> (p < 70)%Q -> grade_of p "B-"
| grade_C_plus : (60 <= p)%Q -> (p < 65)%Q -> grade_of p "C+"
| grade_C : (55 <= p)%Q -> (p < 60)%Q -> grade_of p "C"
| grade_C_minus : (50 <= p)%Q -> (p < 55)%Q -> grade_of p "C-"
| grade_D : (45 <= p)%Q -> (p < 50)%Q -> grade_of p "D"
| grade_F : (p < 45)%Q -> grade_of p "F".

(** The difficulty of a question answered right by the fraction [rate] of
    the students, in the words of the specification. *)
Definition difficulty_of (rate : Q) : string :=
  if Qlt_le_dec (8 # 10) rate then "Easy"
  else if Qlt_le_dec (5 # 10) rate then "Medium"
  else "Hard".

(** The mean of a list of scores. *)
Definition mean (scores : list nat) : Q :=
  (of_nat (sum_list scores) / of_nat (length scores))%Q.

(** The entry of [question_analysis] for question [i + 1], written out. *)
Definition stat_of (results : list result) (i : nat) : QuestionStat.t :=
  let correct := length (filter (fun r => i < score_or_0 r) results) in
  let rate := (of_nat correct / of_nat (length results))%Q in
  QuestionStat.mk (i + 1) correct (length results - correct)
    (round2 (rate * 100)) (difficulty_of rate).

(** The percentage of the batch, from the unrounded average. *)
Definition percentage_of (average : Q) (total_questions : nat) : Q :=
  if 0 <? total_questions then (average / of_nat total_questions * 100)%Q else 0%Q.

(** The number of results counted under the grade [g]: a result that
    carries no grade counts under ['F']. *)
Definition counted_as (g : string) (results : list result) : nat :=
  length (filter (fun r => grade_or_F r = g) results).

(** The number of results that carry the grade [g]. *)
Definition graded (g : string) (results : list result) : nat :=
  length (filter (fun r => get_grade r = Some g) results).

(** The text [hay] includes the text [needle]. *)
Definition includes (needle hay : string) : Prop :=
  exists before after, hay = before +:+ needle +:+ after.

(** The limit of a plan name in lower case, in the words of the
    specification: the fixed table, and 0 for a name it does not have. *)
Definition table_limit (name : string) : nat :=
  if decide (name = "free") then 0
  else if decide (name = "basic") then 0
  else if decide (name = "standard") then 200
  else if decide (name = "premium") then 500
  else 0.

(** The request passes the checks made before the plan limit: both
    identifying fields are there, the answer key is not empty and the
    student answers are the list [sheets]. *)
Definition valid_batch (data : Request.t) (answer_key : list key_entry)
    (sheets : list json) : Prop :=
  is_Some (Request.answer_key_id data) /\
  Request.student_answers data = Some (JArr sheets) /\
  Request.answer_key data = Some answer_key /\
  answer_key <> [].

(** The plan of a request: ['free'] when the body names none. *)
Definition plan_of (data : Request.t) : string :=
  default "free" (Request.user_plan data).

(** The results of a batch: every sheet scored at its own position. *)
Definition scored_batch (answer_key : list key_entry) (sheets : list json)
    : list result :=
  imap (score_sheet answer_key) sheets.

(** The same request with other student sheets. *)
Definition with_sheets (data : Request.t) (sheets : list json) : Request.t :=
  Request.mk (Request.answer_key_id data) (Some (JArr sheets))
    (Request.answer_key data) (Request.user_plan data).

(** The position, in the batch [before ++ bad :: after], of the sheet that
    has position [j] in the batch [before ++ after]. *)
Definition skip (before : list json) (j : nat) : nat :=
  if j <? length before then j else S j.

(** A result moved to position [student_id] of the batch. *)
Definition renumber (student_id : nat) (r : result) : result :=
  match r with
  | Scored s =>
      Scored (SheetResult.mk student_id (SheetResult.score s)
        (SheetResult.total_questions s) (SheetResult.score_percentage s)
        (SheetResult.correct_answers s) (SheetResult.wrong_answers s)
        (SheetResult.unanswered s) (SheetResult.mistakes s) (SheetResult.grade s))
  | Failed e =>
      Failed (ErrorEntry.mk student_id (student_id, snd (ErrorEntry.error e))
        (ErrorEntry.score e) (ErrorEntry.total_questions e))
  end.

(** The results a response carries, if it is a success. *)
Definition results_of (r : response) : option (list result) :=
  match r with
  | Ok200 body => Some (BatchResponse.individual_results body)
  | Error400 _ | Error500 _ => None
  end.

(** Question [j + 1] was answered, and answered right: the scorer reads a
    non-empty answer that is the correct one once both are in upper case. *)
Definition answered_right (student_answers : json) (answer_key : list key_entry)
    (j : nat) : Prop :=
  exists k raw s,
    answer_key !! j = Some k /\
    student_value student_answers j = Returns raw /\
    call_upper raw = Returns s /\
    call_upper (correct_value k) = Returns s /\
    s <> "".

(** What holds of the accumulators of the scoring loop once the first [n]
    questions of the sheet [student_answers] are through. *)
Record scored (student_answers : json) (answer_key : list key_entry)
    (n : nat) (acc : Tally.t) : Prop := {
  scored_total :
    Tally.correct_answers acc + Tally.wrong_answers acc + Tally.unanswered acc = n;
  scored_wrong :
    Tally.wrong_answers acc = count_kind Mistake.Incorrect (Tally.mistakes acc);
  scored_unanswered :
    Tally.unanswered acc = count_kind Mistake.Unanswered (Tally.mistakes acc);
  scored_length :
    length (Tally.mistakes acc) = Tally.wrong_answers acc + Tally.unanswered acc;
  scored_sorted :
    StronglySorted lt (numbers (Tally.mistakes acc));
  scored_range :
    Forall (fun m => 1 <= Mistake.question_number m <= n) (Tally.mistakes acc);
  scored_missing :
    forall j, j < n -> no_answer student_answers j ->
      exists m, m ∈ Tally.mistakes acc /\
                Mistake.question_number m = j + 1 /\
                Mistake.type m = Mistake.Unanswered;
  scored_incorrect :
    forall m, m ∈ Tally.mistakes acc -> Mistake.type m = Mistake.Incorrect ->
      ~ no_answer student_answers (Mistake.question_number m - 1);
  scored_mistaken :
    forall j, j < n ->
      (j + 1 ∈ numbers (Tally.mistakes acc)
       <-> ~ answered_right student_answers answer_key j)
}.

(* ===================================================================== *)
(** * Sample requests *)
(* ===================================================================== *)

(** A two-question key in both shapes, and a dict sheet that answers it in
    the other letter case. *)
Definition mixed_key : list key_entry :=
  [KeyPlain "b"; KeyDict {[ "correct_answer" := JStr "C" ]}].

Definition dict_sheet : json := JObj {[ "1" := JStr "B"; "2" := JStr "c" ]}.

(** A one-question key whose correct answer is the empty string, and the
    sheet that gives the same empty answer. *)
Definition blank_key : list key_entry := [KeyPlain ""].

Definition blank_sheet : json := JArr [JStr ""].

(** The key and the sheet of the end-to-end example of the specification:
    one right answer, one wrong answer, one empty answer. *)
Definition abc_key : list key_entry := [KeyPlain "A"; KeyPlain "B"; KeyPlain "C"].

Definition abc_sheet : json := JArr [JStr "A"; JStr "C"; JStr ""].

(** A sheet that gets one of the two questions of the mixed key right. *)
Definition half_sheet : json := JArr [JStr "b"; JStr "d"].

(** The results of a batch of two sheets scoring 2 and 1 on the mixed key,
    and of a batch whose only sheet is [null]. *)
Definition two_results : list result :=
  [score_sheet mixed_key 0 dict_sheet; score_sheet mixed_key 1 half_sheet].

Definition failed_results : list result := [score_sheet abc_key 0 JNull].

(** A request on the free plan that carries one sheet and no answer key. *)
Definition keyless_request : Request.t :=
  Request.mk (Some (JStr "key-1")) (Some (JArr [abc_sheet])) None (Some "free").

(** A request on the free plan that carries one sheet and its answer key. *)
Definition free_request : Request.t :=
  Request.mk (Some (JStr "key-1")) (Some (JArr [abc_sheet])) (Some abc_key)
    (Some "free").

(** A request on the standard plan whose first sheet is [null], and the
    same request without that sheet. *)
Definition spoiled_request : Request.t :=
  Request.mk (Some (JStr "key-1")) (Some (JArr [JNull; abc_sheet])) (Some abc_key)
    (Some "Standard").

Definition clean_request : Request.t := with_sheets spoiled_request [abc_sheet].

(* ===================================================================== *)
(** * Answer key upload *)
(* ===================================================================== *)

(** The ['answer_key'] of an upload request: a list of entries, or any other
    JSON value. An entry of the list is a dict or any other value, as for the
    scorer. *)
Inductive posted_key :=
| PostedList (entries : list key_entry)
| PostedStr (s : string)
| PostedDict (fields : gmap string json)
| PostedNull
| PostedBool (b : bool)
| PostedNum (q : Q).

(** [len(answer_key)]. *)
Definition posted_len (answer_key : posted_key) : outcome nat :=
  match answer_key with
  | PostedList entries => Returns (length entries)
  | PostedStr s => Returns (String.length s)
  | PostedDict d => Returns (size d)
  | PostedNull | PostedBool _ | PostedNum _ => Raises TypeError
  end.

(** The JSON body of an upload request, field by field. *)
Module UploadRequest.
Record t := mk {
  answer_key : option posted_key;
  subject : option json;
  total_questions : option json
}.
End UploadRequest.

(** The body of a successful upload. *)
Module UploadResponse.
Record t := mk {
  answer_key_id : string;
  subject : json;
  total_questions : nat;
  processed_key : list (gmap string json);
  timestamp : string;
  message : string
}.
End UploadResponse.

Inductive upload_response :=
| Uploaded (body : UploadResponse.t)
| UploadError400 (error : string)
| UploadError500 (error : Py.exn).

(** The dict appended to [processed_key] for the entry at index [i]. *)
Definition process_entry (i : nat) (answer : key_entry) : outcome (gmap string json) :=
  match answer with
  | KeyDict d =>
      correct <- call_upper (default (JStr "") (d !! "answer")) ;;
      Returns {[ "question_number" := JNum (of_nat (i + 1));
                 "correct_answer" := JStr correct;
                 "explanation" := default (JStr "") (d !! "explanation");
                 "marks" := default (JNum 1) (d !! "marks") ]}
  | KeyPlain shown =>
      Returns {[ "question_number" := JNum (of_nat (i + 1));
                 "correct_answer" := JStr (upper shown);
                 "explanation" := JStr "";
                 "marks" := JNum 1 ]}
  end.

(** The loop over [enumerate(answer_key)], from index [i] on. *)
Fixpoint process_entries (i : nat) (answer_key : list key_entry)
    (processed_key : list (gmap string json)) : outcome (list (gmap string json)) :=
  match answer_key with
  | [] => Returns processed_key
  | answer :: rest =>
      entry <- process_entry i answer ;;
      process_entries (S i) rest (processed_key ++ [entry])
  end.

(** The upload endpoint. The default of [data.get('total_questions', ...)]
    is [len(answer_key)], computed before the test that the key is a list. *)
Definition upload_answer_key (answer_key_id timestamp : string)
    (data : UploadRequest.t) : upload_response :=
  match UploadRequest.answer_key data with
  | None => UploadError400 "Answer key is required"
  | Some answer_key =>
      let subject := default (JStr "General") (UploadRequest.subject data) in
      match posted_len answer_key with
      | Raises e => UploadError500 e
      | Returns n =>
          let total_questions :=
            default (JNum (of_nat n)) (UploadRequest.total_questions data) in
          match answer_key with
          | PostedList entries =>
              match process_entries 0 entries [] with
              | Returns processed_key =>
                  Uploaded (UploadResponse.mk answer_key_id subject
                              (length processed_key) processed_key timestamp
                              "Answer key uploaded successfully")
              | Raises e => UploadError500 e
              end
          | _ => UploadError400 "Answer key must be a list of answers"
          end
      end
  end.

(* ===================================================================== *)
(** * Further vocabulary *)
(* ===================================================================== *)

(** The two values compared for question [i + 1]: [student_answer] (line
    138) and [correct] (line 139). *)
Definition student_answer_at (student_answers : json) (i : nat) : outcome string :=
  raw <- student_value student_answers i ;; call_upper raw.

Definition correct_at (correct_answer : key_entry) : outcome string :=
  call_upper (correct_value correct_answer).

(** A mistake tells what the sheet and the key hold for its question. *)
Definition faithful (student_answers : json) (answer_key : list key_entry)
    (m : Mistake.t) : Prop :=
  let i := Mistake.question_number m - 1 in
  (exists k, answer_key !! i = Some k /\
             correct_at k = Returns (Mistake.correct_answer m)) /\
  student_answer_at student_answers i = Returns (Mistake.student_answer m) /\
  match Mistake.type m with
  | Mistake.Unanswered => Mistake.student_answer m = ""
  | Mistake.Incorrect =>
      Mistake.student_answer m <> "" /\
      Mistake.student_answer m <> Mistake.correct_answer m
  end.

(** A JSON value that is a string, or no value at all. *)
Definition text_or_none (v : option json) : Prop :=
  match v with
  | Some (JStr _) | None => True
  | Some _ => False
  end.

(** The sheet can be read at question [i + 1]: it is a dict, a list or a
    string, and what it holds for the question, if anything, is a string. *)
Definition readable (student_answers : json) (i : nat) : Prop :=
  match student_answers with
  | JObj d => text_or_none (d !! str_of_nat (i + 1))
  | JArr items => text_or_none (items !! i)
  | JStr _ => True
  | JNull | JBool _ | JNum _ => False
  end.

(** The key entry can be read: a dict entry has a string under
    ['correct_answer']. *)
Definition key_readable (k : key_entry) : Prop :=
  match k with
  | KeyDict d => exists c, d !! "correct_answer" = Some (JStr c)
  | KeyPlain _ => True
  end.

(** The posted entry can be processed: a dict entry has a string, or
    nothing, under ['answer']. *)
Definition processable (k : key_entry) : Prop :=
  match k with
  | KeyDict d => text_or_none (d !! "answer")
  | KeyPlain _ => True
  end.

(** The text a posted entry gives as its answer. *)
Definition answer_text (k : key_entry) : string :=
  match k with
  | KeyDict d => match d !! "answer" with Some (JStr s) => s | _ => "" end
  | KeyPlain shown => shown
  end.

(** The dict a posted entry that can be processed becomes, at index [i]. *)
Definition processed_of (i : nat) (k : key_entry) : gmap string json :=
  {[ "question_number" := JNum (of_nat (i + 1));
     "correct_answer" := JStr (upper (answer_text k));
     "explanation" :=
       match k with
       | KeyDict d => default (JStr "") (d !! "explanation")
       | KeyPlain _ => JStr ""
       end;
     "marks" :=
       match k with
       | KeyDict d => default (JNum 1) (d !! "marks")
       | KeyPlain _ => JNum 1
       end ]}.

(** An upload request whose answer key is the list [entries]. *)
Definition upload_of (entries : list key_entry) (subject total_questions : option json)
    : UploadRequest.t :=
  UploadRequest.mk (Some (PostedList entries)) subject total_questions.




(** The list sheet that gives the characters of [s] one by one. *)
Fixpoint letters (s : string) : list json :=
  match s with
  | EmptyString => []
  | String c rest => JStr (String c EmptyString) :: letters rest
  end.

(** The rank of a grade, from 'F' up to 'A+'. *)
Definition grade_rank (g : string) : nat :=
  if decide (g = "A+") then 10
  else if decide (g = "A") then 9
  else if decide (g = "A-") then 8
  else if decide (g = "B+") then 7
  else if decide (g = "B") then 6
  else if decide (g = "B-") then 5
  else if decide (g = "C+") then 4
  else if decide (g = "C") then 3
  else if decide (g = "C-") then 2
  else if decide (g = "D") then 1
  else 0.

(** The sum of the counts of a grade distribution. *)
Definition total_count (m : gmap string nat) : nat :=
  map_fold (fun _ n acc => n + acc) 0 m.

(** The string under a key of a processed entry. *)
Definition text_field (entry : gmap string json) (field : string) : option string :=
  match entry !! field with
  | Some (JStr s) => Some s
  | _ => None
  end.

(** A posted key of two dict entries, the second without ['answer'], and a
    plain entry. *)
Definition posted_entries : list key_entry :=
  [KeyDict {[ "answer" := JStr "b"; "marks" := JNum 2 ]};
   KeyDict {[ "explanation" := JStr "see page 3" ]};
   KeyPlain "c"].

Definition upload_request : UploadRequest.t :=
  UploadRequest.mk (Some (PostedList posted_entries)) None None.

(* ===================================================================== *)
(** * Lemmas on the runtime *)
(* ===================================================================== *)

Ltac unbind H :=
  unfold Py.bind in H;
  repeat match type of H with
  | context [match ?m with Returns _ => _ | Raises _ => _ end] =>
      let E := fresh "E" in destruct m eqn:E; try discriminate H
  end.

Lemma upper_empty (s : string) : upper s = "" <-> s = "".
Proof. destruct s; simpl; split; intros H; congruence. Qed.

Lemma lower_upper_char (c : ascii) : lower_char (upper_char c) = lower_char c.
Proof. destruct c as [[] [] [] [] [] [] [] []]; reflexivity. Qed.

Lemma lower_upper (s : string) : lower (upper s) = lower s.
Proof. induction s as [|c s IH]; simpl; [done|]. by rewrite lower_upper_char, IH. Qed.

Lemma lower_lower_char (c : ascii) : lower_char (lower_char c) = lower_char c.
Proof. destruct c as [[] [] [] [] [] [] [] []]; reflexivity. Qed.

Lemma lower_lower (s : string) : lower (lower s) = lower s.
Proof. induction s as [|c s IH]; simpl; [done|]. by rewrite lower_lower_char, IH. Qed.

Lemma of_nat_pos (n : nat) : 0 < n -> Qeq_bool (of_nat n) 0 = false.
Proof.
  intros Hn. destruct (Qeq_bool (of_nat n) 0) eqn:E; [|done].
  apply Qeq_bool_eq in E. unfold of_nat, Qeq in E. simpl in E. lia.
Qed.

Lemma truediv_pos (a : Q) (n : nat) :
  0 < n -> truediv a (of_nat n) = Returns (a / of_nat n)%Q.
Proof. intros Hn. unfold truediv. by rewrite of_nat_pos. Qed.

Lemma sum_from (xs : list nat) (a : nat) : fold_left Nat.add xs a = a + sum_list xs.
Proof.
  revert a. induction xs as [|x xs IH]; intros a; simpl; [lia|].
  rewrite IH. lia.
Qed.

Lemma sum_sum_list (xs : list nat) : Py.sum xs = sum_list xs.
Proof. unfold Py.sum. by rewrite sum_from. Qed.

Lemma max_from_spec (xs : list nat) (a : nat) :
  let m := fold_left (fun m y => if m <? y then y else m) xs a in
  m ∈ a :: xs /\ Forall (fun x => x <= m) (a :: xs).
Proof.
  revert a. induction xs as [|x xs IH]; intros a; simpl.
  - split; [left|]. by repeat constructor.
  - destruct (IH (if a <? x then x else a)) as [Hin Hall].
    apply Forall_cons in Hall as [Hhd Htl].
    split.
    + apply elem_of_cons in Hin as [->|Hin]; [|by do 2 right].
      destruct (a <? x); [right|]; left.
    + destruct (Nat.ltb_spec a x); repeat constructor; trivial; lia.
Qed.

Lemma min_from_spec (xs : list nat) (a : nat) :
  let m := fold_left (fun m y => if y <? m then y else m) xs a in
  m ∈ a :: xs /\ Forall (fun x => m <= x) (a :: xs).
Proof.
  revert a. induction xs as [|x xs IH]; intros a; simpl.
  - split; [left|]. by repeat constructor.
  - destruct (IH (if x <? a then x else a)) as [Hin Hall].
    apply Forall_cons in Hall as [Hhd Htl].
    split.
    + apply elem_of_cons in Hin as [->|Hin]; [|by do 2 right].
      destruct (x <? a); [right|]; left.
    + destruct (Nat.ltb_spec x a); repeat constructor; trivial; lia.
Qed.

Lemma max_spec (xs : list nat) :
  xs <> [] ->
  exists m, Py.max xs = Returns m /\ m ∈ xs /\ Forall (fun x => x <= m) xs.
Proof.
  destruct xs as [|a xs]; [done|]. intros _.
  eexists. split; [reflexivity|]. apply max_from_spec.
Qed.

Lemma min_spec (xs : list nat) :
  xs <> [] ->
  exists m, Py.min xs = Returns m /\ m ∈ xs /\ Forall (fun x => m <= x) xs.
Proof.
  destruct xs as [|a xs]; [done|]. intros _.
  eexists. split; [reflexivity|]. apply min_from_spec.
Qed.

Lemma round_half_even_comp (x y : Q) :
  (x == y)%Q -> round_half_even x = round_half_even y.
Proof.
  intros H. unfold round_half_even.
  rewrite (Qfloor_comp _ _ H).
  assert (Hc : (x - inject_Z (Qfloor y) ?= 1 # 2)%Q
             = (y - inject_Z (Qfloor y) ?= 1 # 2)%Q).
  { apply Qcompare_comp; [|reflexivity]. by rewrite H. }
  by rewrite Hc.
Qed.

Lemma round2_comp (x y : Q) : (x == y)%Q -> (round2 x == round2 y)%Q.
Proof.
  intros H. unfold round2.
  rewrite (round_half_even_comp (x * 100) (y * 100)); [reflexivity|].
  by rewrite H.
Qed.

Lemma gt_num_spec (x y : Q) : gt_num x y = true <-> (y < x)%Q.
Proof.
  unfold gt_num. rewrite negb_true_iff. split.
  - intros H. apply Qnot_le_lt. intros Hle.
    apply Qle_bool_iff in Hle. congruence.
  - intros H. destruct (Qle_bool x y) eqn:E; [|done].
    apply Qle_bool_iff in E. exfalso. by apply (Qlt_not_le y x).
Qed.

Lemma ge_num_spec (x y : Q) : ge_num x y = true <-> (y <= x)%Q.
Proof. unfold ge_num. apply Qle_bool_iff. Qed.

Lemma ge_num_false (x y : Q) : ge_num x y = false <-> (x < y)%Q.
Proof.
  split.
  - intros H. apply Qnot_le_lt. intros Hle. apply ge_num_spec in Hle. congruence.
  - intros H. destruct (ge_num x y) eqn:E; [|done].
    apply ge_num_spec in E. exfalso. by apply (Qlt_not_le x y).
Qed.

(* ===================================================================== *)
(** * The scoring loop and its invariant *)
(* ===================================================================== *)

Lemma get_lt (t : string) (i : nat) (c : ascii) :
  String.get i t = Some c -> i < String.length t.
Proof.
  revert i. induction t as [|a t IH]; intros [|i]; simpl; try done; [lia|].
  intros H. apply IH in H. lia.
Qed.

Lemma no_answer_value (student_answers : json) (i : nat) :
  no_answer student_answers i -> student_value student_answers i = Returns (JStr "").
Proof.
  destruct student_answers as [| | | t | items | d]; simpl; try done.
  - intros H. by apply Nat.ltb_ge in H as ->.
  - intros [H|H].
    + by apply Nat.ltb_ge in H as ->.
    + pose proof (lookup_lt_Some _ _ _ H) as Hlt.
      apply Nat.ltb_lt in Hlt as ->. unfold item. by rewrite H.
  - by intros [->| ->].
Qed.

Lemma student_says_value (student_answers : json) (i : nat) (s : string) :
  student_says student_answers i s -> student_value student_answers i = Returns (JStr s).
Proof.
  destruct student_answers as [| | | t | items | d]; simpl; try done.
  - intros (c & Hget & ->).
    pose proof (get_lt _ _ _ Hget) as Hlt.
    apply Nat.ltb_lt in Hlt as ->. unfold char_at. by rewrite Hget.
  - intros H. pose proof (lookup_lt_Some _ _ _ H) as Hlt.
    apply Nat.ltb_lt in Hlt as ->. unfold item. by rewrite H.
  - by intros ->.
Qed.

Lemma key_says_value (k : key_entry) (c : string) :
  key_says k c -> correct_value k = JStr c.
Proof. destruct k as [d|shown]; simpl; [by intros ->|congruence]. Qed.

Lemma count_kind_snoc (kind : Mistake.kind) (ms : list Mistake.t) (m : Mistake.t) :
  count_kind kind (ms ++ [m])
  = count_kind kind ms + (if decide (Mistake.type m = kind) then 1 else 0).
Proof.
  unfold count_kind. rewrite filter_app, length_app. f_equal.
  rewrite filter_cons, filter_nil. by case_decide.
Qed.

Lemma sorted_snoc (l : list nat) (a : nat) :
  StronglySorted lt l -> Forall (fun x => x < a) l -> StronglySorted lt (l ++ [a]).
Proof.
  induction 1 as [|x l Hs IH Hx]; intros Hall; simpl.
  - repeat constructor.
  - apply Forall_cons in Hall as [Hxa Hall].
    constructor; [by apply IH|].
    apply Forall_app. split; [done|]. by repeat constructor.
Qed.

(** The three ways an iteration of the scoring loop can end. *)
Lemma score_question_cases student_answers i k acc acc' :
  score_question student_answers i k acc = Returns acc' ->
  exists raw s c,
    student_value student_answers i = Returns raw /\
    call_upper raw = Returns s /\
    call_upper (correct_value k) = Returns c /\
    ((s = "" /\
      acc' = Tally.mk (Tally.correct_answers acc) (Tally.wrong_answers acc)
               (Tally.unanswered acc + 1)
               (Tally.mistakes acc ++
                  [Mistake.mk (i + 1) Mistake.Unanswered "" c
                     ("Question " +:+ str_of_nat (i + 1) +:+ " was not answered")])) \/
     (s <> "" /\ s = c /\
      acc' = Tally.mk (Tally.correct_answers acc + 1) (Tally.wrong_answers acc)
               (Tally.unanswered acc) (Tally.mistakes acc)) \/
     (s <> "" /\ s <> c /\
      exists text,
      acc' = Tally.mk (Tally.correct_answers acc) (Tally.wrong_answers acc + 1)
               (Tally.unanswered acc)
               (Tally.mistakes acc ++
                  [Mistake.mk (i + 1) Mistake.Incorrect s c text]))).
Proof.
  unfold score_question. intros H. unbind H.
  eexists _, _, _. repeat (split; [reflexivity|]).
  repeat case_bool_decide; simplify_eq; eauto 10.
Qed.

Lemma no_answer_upper student_answers i raw s :
  no_answer student_answers i ->
  student_value student_answers i = Returns raw ->
  call_upper raw = Returns s ->
  s = "".
Proof.
  intros Hno Hraw Hup. rewrite (no_answer_value _ _ Hno) in Hraw.
  injection Hraw as <-. simpl in Hup. by injection Hup as <-.
Qed.

Lemma scored_zero student_answers answer_key :
  scored student_answers answer_key 0 Tally.zero.
Proof.
  split; simpl; try done.
  - constructor.
  - lia.
  - intros m Hm. by apply elem_of_nil in Hm.
  - lia.
Qed.

Lemma numbers_snoc (ms : list Mistake.t) (m : Mistake.t) :
  numbers (ms ++ [m]) = numbers ms ++ [Mistake.question_number m].
Proof. unfold numbers. by rewrite map_app. Qed.

Lemma numbers_below (ms : list Mistake.t) (n q : nat) :
  Forall (fun m => 1 <= Mistake.question_number m <= n) ms ->
  q ∈ numbers ms -> 1 <= q <= n.
Proof.
  intros Hall Hq. unfold numbers in Hq.
  apply list_elem_of_fmap in Hq as (m & -> & Hm).
  by apply (proj1 (Forall_forall _ _) Hall).
Qed.

Lemma scored_step student_answers answer_key i k acc acc' :
  answer_key !! i = Some k ->
  scored student_answers answer_key i acc ->
  score_question student_answers i k acc = Returns acc' ->
  scored student_answers answer_key (S i) acc'.
Proof.
  intros Hk [Htot Hwr Hun Hlen Hsort Hrange Hmiss Hinc Hmis] Hstep.
  apply score_question_cases in Hstep
    as (raw & s & c & Hraw & Hs & Hc & [(-> & ->) | [(Hne & <- & ->) | (Hne & Hsc & text & ->)]]).
  - split; simpl.
    + lia.
    + rewrite count_kind_snoc. simpl. lia.
    + rewrite count_kind_snoc. simpl. lia.
    + rewrite length_app. simpl. lia.
    + rewrite numbers_snoc. simpl. apply sorted_snoc; [done|].
      apply Forall_map. eapply Forall_impl; [exact Hrange|]. simpl. lia.
    + apply Forall_app. split.
      * eapply Forall_impl; [exact Hrange|]. simpl. lia.
      * apply Forall_singleton. simpl. lia.
    + intros j Hj Hno. destruct (decide (j = i)) as [->|Hji].
      * eexists. split; [apply elem_of_app; right; left|]. done.
      * destruct (Hmiss j) as (m & Hm & Hq & Ht); [lia|done|].
        exists m. split; [apply elem_of_app; by left|done].
    + intros m Hm Ht. apply elem_of_app in Hm as [Hm|Hm]; [by apply Hinc|].
      apply list_elem_of_singleton in Hm as ->. done.
    + intros j Hj. rewrite numbers_snoc. simpl.
      destruct (decide (j = i)) as [->|Hji].
      * split; [|intros _; apply elem_of_app; right; left].
        intros _ (k' & raw' & s' & Hk' & Hraw' & Hs' & _ & Hne).
        rewrite Hraw in Hraw'. injection Hraw' as <-.
        rewrite Hs in Hs'. by injection Hs' as <-.
      * rewrite <- Hmis by lia. rewrite elem_of_app, list_elem_of_singleton.
        split; [intros [H|H]; [done|lia]|by left].
  - split; simpl; try done.
    + lia.
    + eapply Forall_impl; [exact Hrange|]. simpl. lia.
    + intros j Hj Hno. destruct (decide (j = i)) as [->|Hji].
      * exfalso. apply Hne. eapply no_answer_upper; eauto.
      * apply Hmiss; [lia|done].
    + intros j Hj. destruct (decide (j = i)) as [->|Hji]; [|apply Hmis; lia].
      split.
      * intros Hin. apply (numbers_below _ i) in Hin; [lia|done].
      * intros Hnot. exfalso. apply Hnot. by exists k, raw, s.
  - split; simpl.
    + lia.
    + rewrite count_kind_snoc. simpl. lia.
    + rewrite count_kind_snoc. simpl. lia.
    + rewrite length_app. simpl. lia.
    + rewrite numbers_snoc. simpl. apply sorted_snoc; [done|].
      apply Forall_map. eapply Forall_impl; [exact Hrange|]. simpl. lia.
    + apply Forall_app. split.
      * eapply Forall_impl; [exact Hrange|]. simpl. lia.
      * apply Forall_singleton. simpl. lia.
    + intros j Hj Hno. destruct (decide (j = i)) as [->|Hji].
      * exfalso. apply Hne. eapply no_answer_upper; eauto.
      * destruct (Hmiss j) as (m & Hm & Hq & Ht); [lia|done|].
        exists m. split; [apply elem_of_app; by left|done].
    + intros m Hm Ht. apply elem_of_app in Hm as [Hm|Hm]; [by apply Hinc|].
      apply list_elem_of_singleton in Hm as ->. simpl.
      replace (i + 1 - 1) with i by lia.
      intros Hno. apply Hne. eapply no_answer_upper; eauto.
    + intros j Hj. rewrite numbers_snoc. simpl.
      destruct (decide (j = i)) as [->|Hji].
      * split; [|intros _; apply elem_of_app; right; left].
        intros _ (k' & raw' & s' & Hk' & Hraw' & Hs' & Hc' & _).
        rewrite Hk in Hk'. injection Hk' as <-.
        rewrite Hraw in Hraw'. injection Hraw' as <-.
        rewrite Hs in Hs'. injection Hs' as <-.
        rewrite Hc in Hc'. by injection Hc'.
      * rewrite <- Hmis by lia. rewrite elem_of_app, list_elem_of_singleton.
        split; [intros [H|H]; [done|lia]|by left].
Qed.

Lemma scored_loop student_answers answer_key rest : forall i acc acc',
  (forall j k, rest !! j = Some k -> answer_key !! (i + j) = Some k) ->
  scored student_answers answer_key i acc ->
  score_questions student_answers i rest acc = Returns acc' ->
  scored student_answers answer_key (i + length rest) acc'.
Proof.
  induction rest as [|k rest IH]; intros i acc acc' Hkey Hinv Hrun; simpl in *.
  - injection Hrun as <-. by rewrite Nat.add_0_r.
  - unbind Hrun. replace (i + S (length rest)) with (S i + length rest) by lia.
    eapply IH; [| |exact Hrun].
    + intros j k' Hj. replace (S i + j) with (i + S j) by lia. by apply Hkey.
    + eapply scored_step; [|exact Hinv|exact E].
      specialize (Hkey 0 k eq_refl). by rewrite Nat.add_0_r in Hkey.
Qed.

(** What [analyze_single_mcq_sheet] returns, in terms of the loop. *)
Lemma analyze_returns student_answers answer_key student_id r :
  analyze_single_mcq_sheet student_answers answer_key student_id = Returns r ->
  exists acc pct,
    score_questions student_answers 0 answer_key Tally.zero = Returns acc /\
    r = SheetResult.mk student_id (Tally.correct_answers acc) (length answer_key)
          (round2 pct) (Tally.correct_answers acc) (Tally.wrong_answers acc)
          (Tally.unanswered acc) (Tally.mistakes acc) (calculate_grade pct).
Proof.
  unfold analyze_single_mcq_sheet. intros H. unbind H.
  injection H as <-. by eexists _, _.
Qed.

Lemma analyze_scored student_answers answer_key student_id r :
  analyze_single_mcq_sheet student_answers answer_key student_id = Returns r ->
  scored student_answers answer_key (length answer_key)
    (Tally.mk (SheetResult.correct_answers r) (SheetResult.wrong_answers r)
       (SheetResult.unanswered r) (SheetResult.mistakes r)).
Proof.
  intros H. apply analyze_returns in H as (acc & pct & Hrun & ->). simpl.
  apply (scored_loop student_answers answer_key answer_key 0) in Hrun.
  - by destruct acc.
  - by intros j k Hj.
  - apply scored_zero.
Qed.

Lemma sorted_numbers_unique (ms : list Mistake.t) (m m' : Mistake.t) :
  StronglySorted lt (numbers ms) ->
  m ∈ ms -> m' ∈ ms ->
  Mistake.question_number m = Mistake.question_number m' ->
  m = m'.
Proof.
  induction ms as [|a ms IH]; simpl; intros Hs Hm Hm' Hq.
  - by apply elem_of_nil in Hm.
  - apply StronglySorted_inv in Hs as [Hs Hall].
    assert (Hlt : forall x, x ∈ ms ->
              Mistake.question_number a < Mistake.question_number x).
    { intros x Hx. apply (proj1 (Forall_forall _ _) Hall).
      unfold numbers. apply list_elem_of_fmap. by exists x. }
    apply elem_of_cons in Hm as [->|Hm]; apply elem_of_cons in Hm' as [->|Hm'].
    + done.
    + apply Hlt in Hm'. lia.
    + apply Hlt in Hm. lia.
    + by apply IH.
Qed.

(** A sheet whose every answer is given and matches is scored without an
    error, every question counted as correct. *)
Lemma all_right_loop student_answers rest : forall i acc,
  (forall j k, rest !! j = Some k ->
     matches student_answers (i + j) k /\ ~ student_says student_answers (i + j) "") ->
  score_questions student_answers i rest acc
  = Returns (Tally.mk (Tally.correct_answers acc + length rest)
               (Tally.wrong_answers acc) (Tally.unanswered acc)
               (Tally.mistakes acc)).
Proof.
  induction rest as [|k rest IH]; intros i acc Hall; simpl.
  - rewrite Nat.add_0_r. by destruct acc.
  - destruct (Hall 0 k eq_refl) as [(s & c & Hs & Hc & Heq) Hne].
    rewrite Nat.add_0_r in Hs, Hne.
    assert (Hs' : s <> "") by (intros ->; by apply Hne).
    unfold score_question.
    rewrite (student_says_value _ _ _ Hs), (key_says_value _ _ Hc). simpl.
    rewrite bool_decide_eq_false_2 by (by rewrite upper_empty).
    rewrite bool_decide_eq_true_2 by done.
    simpl. rewrite IH; simpl.
    + do 2 f_equal. lia.
    + intros j k' Hj. specialize (Hall (S j) k' Hj).
      by replace (i + S j) with (S i + j) in Hall by lia.
Qed.

Lemma round2_100 (x : Q) : (x == 100)%Q -> (round2 x == 100)%Q.
Proof. intros H. by rewrite (round2_comp _ _ H). Qed.

Lemma percent_of_all (n : nat) :
  0 < n -> (of_nat n / of_nat n * 100 == 100)%Q.
Proof.
  intros Hn. unfold Qdiv. rewrite Qmult_inv_r; [reflexivity|].
  intros H. unfold of_nat, Qeq in H. simpl in H. lia.
Qed.

(* ===================================================================== *)
(** * Properties of the sheet scorer *)
(* ===================================================================== *)

(** Claim C1, as the code has it. For every answer key of length N >= 1 and
    every student sheet (a list, a dict or a string) whose N answers are all
    given, not empty, and equal to the corresponding correct answers once
    both are in upper case, [analyze_single_mcq_sheet] returns a result with
    score = N, wrong_answers = 0, unanswered = 0 and score_percentage = 100. *)
Theorem perfect_sheet_scores_all student_answers answer_key student_id :
  answer_key <> [] ->
  (forall i k, answer_key !! i = Some k ->
     matches student_answers i k /\ ~ student_says student_answers i "") ->
  exists r,
    analyze_single_mcq_sheet student_answers answer_key student_id = Returns r /\
    SheetResult.score r = length answer_key /\
    SheetResult.wrong_answers r = 0 /\
    SheetResult.unanswered r = 0 /\
    (SheetResult.score_percentage r == 100)%Q.
Proof.
  intros Hkey Hall.
  assert (Hlen : 0 < length answer_key) by (destruct answer_key; simpl; [done|lia]).
  unfold analyze_single_mcq_sheet.
  rewrite (all_right_loop student_answers answer_key 0 Tally.zero) by done.
  simpl. apply Nat.ltb_lt in Hlen as Hltb. rewrite Hltb.
  rewrite truediv_pos by done. simpl.
  eexists. split; [reflexivity|]. simpl.
  repeat split. apply round2_100, percent_of_all, Hlen.
Qed.

(** The mixed key against the dict sheet. *)
Lemma perfect_sheet_scores_all_witness :
  exists r,
    analyze_single_mcq_sheet dict_sheet mixed_key 7 = Returns r /\
    SheetResult.score r = 2 /\
    SheetResult.wrong_answers r = 0 /\
    SheetResult.unanswered r = 0 /\
    (SheetResult.score_percentage r == 100)%Q.
Proof.
  apply (perfect_sheet_scores_all dict_sheet mixed_key 7).
  - discriminate.
  - intros [|[|i]] k Hk; simpl in Hk; try discriminate;
      injection Hk as <-; (split; [|vm_compute; discriminate]).
    + exists "B", "b". by vm_compute.
    + exists "c", "C". by vm_compute.
Defined.

(** Claim C1 as it is stated fails where an answer is empty on both sides,
    which the scorer counts as unanswered, and on the empty key, where the
    percentage is 0. *)
Lemma matching_empty_answer_is_unanswered :
  ((forall i k, blank_key !! i = Some k -> matches blank_sheet i k) /\
   exists r,
     analyze_single_mcq_sheet blank_sheet blank_key 1 = Returns r /\
     SheetResult.score r = 0 /\
     SheetResult.unanswered r = 1 /\
     SheetResult.score r <> length blank_key /\
     ~ (SheetResult.score_percentage r == 100)%Q) /\
  ((forall i k, @nil key_entry !! i = Some k -> matches (JArr []) i k) /\
   exists r,
     analyze_single_mcq_sheet (JArr []) [] 1 = Returns r /\
     SheetResult.score r = 0 /\
     ~ (SheetResult.score_percentage r == 100)%Q).
Proof.
  split.
  - split.
    + intros [|i] k Hk; simpl in Hk; [|discriminate].
      injection Hk as <-. by exists "", "".
    + eexists. split; [vm_compute; reflexivity|]. simpl.
      repeat split; discriminate.
  - split.
    + intros i k Hk. discriminate.
    + eexists. split; [vm_compute; reflexivity|]. simpl.
      split; [done|discriminate].
Qed.

(** Claim C2. Whenever [analyze_single_mcq_sheet] returns a result, for every
    question i+1 of the key whose student answer is empty or missing (a dict
    without the key or with an empty string, a list or a string too short
    or a list with an empty string), [mistakes] holds exactly one verdict
    for that question, its type is 'unanswered' and no verdict for that
    question has type 'incorrect'; [unanswered] counts the verdicts of type
    'unanswered' and [wrong_answers] those of type 'incorrect', so that the
    question is counted in the former. *)
Theorem missing_answer_is_unanswered student_answers answer_key student_id r i :
  analyze_single_mcq_sheet student_answers answer_key student_id = Returns r ->
  i < length answer_key ->
  no_answer student_answers i ->
  (exists m,
     m ∈ SheetResult.mistakes r /\
     Mistake.question_number m = i + 1 /\
     Mistake.type m = Mistake.Unanswered /\
     forall m', m' ∈ SheetResult.mistakes r ->
       Mistake.question_number m' = i + 1 -> m' = m) /\
  (forall m, m ∈ SheetResult.mistakes r ->
     Mistake.question_number m = i + 1 -> Mistake.type m <> Mistake.Incorrect) /\
  SheetResult.unanswered r = count_kind Mistake.Unanswered (SheetResult.mistakes r) /\
  SheetResult.wrong_answers r = count_kind Mistake.Incorrect (SheetResult.mistakes r).
Proof.
  intros Hrun Hi Hno.
  destruct (analyze_scored _ _ _ _ Hrun)
    as [_ Hwr Hun _ Hsort _ Hmiss Hinc _]; simpl in *.
  destruct (Hmiss i Hi Hno) as (m & Hm & Hq & Ht).
  split; [|split; [|done]].
  - exists m. repeat split; try done.
    intros m' Hm' Hq'. eapply sorted_numbers_unique; eauto. congruence.
  - intros m' Hm' Hq' Ht'. apply (Hinc m' Hm' Ht').
    rewrite Hq'. by replace (i + 1 - 1) with i by lia.
Qed.

(** The third question of the sample sheet is left empty. *)
Lemma missing_answer_is_unanswered_witness :
  exists r,
    analyze_single_mcq_sheet abc_sheet abc_key 1 = Returns r /\
    (exists m,
       m ∈ SheetResult.mistakes r /\
       Mistake.question_number m = 3 /\
       Mistake.type m = Mistake.Unanswered /\
       forall m', m' ∈ SheetResult.mistakes r ->
         Mistake.question_number m' = 3 -> m' = m) /\
    (forall m, m ∈ SheetResult.mistakes r ->
       Mistake.question_number m = 3 -> Mistake.type m <> Mistake.Incorrect) /\
    SheetResult.unanswered r = count_kind Mistake.Unanswered (SheetResult.mistakes r) /\
    SheetResult.wrong_answers r = count_kind Mistake.Incorrect (SheetResult.mistakes r).
Proof.
  eexists. split; [vm_compute; reflexivity|].
  apply (missing_answer_is_unanswered abc_sheet abc_key 1 _ 2).
  - vm_compute; reflexivity.
  - simpl; lia.
  - right; reflexivity.
Defined.

(** Claim C10. Whenever [analyze_single_mcq_sheet] returns a result,
    correct_answers + wrong_answers + unanswered = total_questions, which is
    the length of the answer key, score = correct_answers, and [mistakes]
    has wrong_answers + unanswered entries, in strictly ascending order of
    question number, one for each question of the key that was not answered
    right and none for the others. *)
Theorem sheet_result_invariant student_answers answer_key student_id r :
  analyze_single_mcq_sheet student_answers answer_key student_id = Returns r ->
  SheetResult.correct_answers r + SheetResult.wrong_answers r
    + SheetResult.unanswered r = SheetResult.total_questions r /\
  SheetResult.total_questions r = length answer_key /\
  SheetResult.score r = SheetResult.correct_answers r /\
  length (SheetResult.mistakes r)
    = SheetResult.wrong_answers r + SheetResult.unanswered r /\
  StronglySorted lt (numbers (SheetResult.mistakes r)) /\
  (forall q, q ∈ numbers (SheetResult.mistakes r) -> 1 <= q <= length answer_key) /\
  (forall j, j < length answer_key ->
     (j + 1 ∈ numbers (SheetResult.mistakes r)
      <-> ~ answered_right student_answers answer_key j)).
Proof.
  intros Hrun.
  destruct (analyze_scored _ _ _ _ Hrun)
    as [Htot _ _ Hlen Hsort Hrange _ _ Hmis]; simpl in *.
  apply analyze_returns in Hrun as (acc & pct & _ & ->); simpl in *.
  repeat split; try done.
  - by apply (numbers_below _ _ _ Hrange).
  - by apply (numbers_below _ _ _ Hrange).
  - by apply Hmis.
  - by apply Hmis.
Qed.

(** The sample sheet: one right, one wrong, one empty. *)
Lemma sheet_result_invariant_witness :
  exists r,
    analyze_single_mcq_sheet abc_sheet abc_key 1 = Returns r /\
    SheetResult.correct_answers r + SheetResult.wrong_answers r
      + SheetResult.unanswered r = SheetResult.total_questions r /\
    SheetResult.total_questions r = 3 /\
    SheetResult.score r = SheetResult.correct_answers r /\
    length (SheetResult.mistakes r)
      = SheetResult.wrong_answers r + SheetResult.unanswered r /\
    StronglySorted lt (numbers (SheetResult.mistakes r)) /\
    (forall q, q ∈ numbers (SheetResult.mistakes r) -> 1 <= q <= 3) /\
    (forall j, j < 3 ->
       (j + 1 ∈ numbers (SheetResult.mistakes r)
        <-> ~ answered_right abc_sheet abc_key j)).
Proof.
  eexists. split; [vm_compute; reflexivity|].
  apply (sheet_result_invariant abc_sheet abc_key 1).
  vm_compute; reflexivity.
Defined.

(* ===================================================================== *)
(** * Properties of the grade calculator and of the plan limiter *)
(* ===================================================================== *)

Ltac grade_cases p :=
  unfold calculate_grade;
  repeat match goal with
  | |- context [ge_num p ?t] =>
      let E := fresh "E" in
      destruct (ge_num p t) eqn:E;
      [apply ge_num_spec in E | apply ge_num_false in E];
      cbv iota
  end.

Lemma calculate_grade_sound (p : Q) : grade_of p (calculate_grade p).
Proof. grade_cases p; constructor; lra. Qed.

Lemma calculate_grade_complete (p : Q) (g : string) :
  grade_of p g -> calculate_grade p = g.
Proof.
  intros H. destruct H; grade_cases p; try reflexivity; exfalso; lra.
Qed.

(** Claim C3. [calculate_grade] is defined on every rational percentage,
    negative ones and ones above 100 included, and returns the grade of the
    descending table >=90 A+, >=85 A, >=80 A-, >=75 B+, >=70 B, >=65 B-,
    >=60 C+, >=55 C, >=50 C-, >=45 D, else F, and no other; in particular
    calculate_grade(90) = 'A+', calculate_grade(89.9) = 'A' and
    calculate_grade(44.9) = 'F'. *)
Theorem calculate_grade_table :
  (forall p g, calculate_grade p = g <-> grade_of p g) /\
  (forall p, exists g, calculate_grade p = g) /\
  calculate_grade 90 = "A+" /\
  calculate_grade (899 # 10) = "A" /\
  calculate_grade (449 # 10) = "F".
Proof.
  split; [|split; [|by vm_compute]].
  - intros p g. split.
    + intros <-. apply calculate_grade_sound.
    + apply calculate_grade_complete.
  - intros p. by eexists.
Qed.

(** A negative percentage and one above 100. *)
Lemma calculate_grade_table_witness :
  grade_of (-5) "F" /\ grade_of 250 "A+" /\ calculate_grade (72 # 1) = "B".
Proof.
  destruct calculate_grade_table as [Hiff _].
  split; [|split].
  - apply (Hiff (-5)%Q "F"). vm_compute; reflexivity.
  - apply (Hiff 250%Q "A+"). vm_compute; reflexivity.
  - apply (Hiff 72%Q "B"). apply grade_B; vm_compute; [discriminate|reflexivity].
Defined.

Lemma lower_upper_limit (plan : string) : get_mcq_limit (upper plan) = get_mcq_limit plan.
Proof. unfold get_mcq_limit. by rewrite lower_upper. Qed.

Lemma lower_lower_limit (plan : string) : get_mcq_limit (lower plan) = get_mcq_limit plan.
Proof. unfold get_mcq_limit. by rewrite lower_lower. Qed.

Lemma unknown_plan_limit (plan : string) :
  lower plan <> "free" -> lower plan <> "basic" ->
  lower plan <> "standard" -> lower plan <> "premium" ->
  get_mcq_limit plan = 0.
Proof.
  intros H1 H2 H3 H4. unfold get_mcq_limit, limits.
  rewrite !lookup_insert_ne by done. by rewrite lookup_singleton_ne.
Qed.

Lemma known_plan_limit (plan : string) :
  (lower plan = "free" -> get_mcq_limit plan = 0) /\
  (lower plan = "basic" -> get_mcq_limit plan = 0) /\
  (lower plan = "standard" -> get_mcq_limit plan = 200) /\
  (lower plan = "premium" -> get_mcq_limit plan = 500).
Proof. unfold get_mcq_limit. repeat split; by intros ->. Qed.

(* ===================================================================== *)
(** * Properties of the batch aggregator *)
(* ===================================================================== *)

Lemma count_correct_from (i : nat) (results : list result) (a : nat) :
  fold_left
    (fun correct_count r => if i <? score_or_0 r then correct_count + 1 else correct_count)
    results a
  = a + length (filter (fun r => i < score_or_0 r) results).
Proof.
  revert a. induction results as [|r results IH]; intros a; simpl; [lia|].
  rewrite IH, filter_cons.
  destruct (Nat.ltb_spec i (score_or_0 r)); case_decide; simpl; lia.
Qed.

Lemma count_correct_filter (i : nat) (results : list result) :
  count_correct i results = length (filter (fun r => i < score_or_0 r) results).
Proof. unfold count_correct. by rewrite count_correct_from. Qed.

Lemma count_correct_le (i : nat) (results : list result) :
  count_correct i results <= length results.
Proof. rewrite count_correct_filter. apply length_filter. Qed.

Lemma gt_num_difficulty (rate : Q) :
  (if gt_num rate (8 # 10) then "Easy"
   else if gt_num rate (5 # 10) then "Medium" else "Hard")
  = difficulty_of rate.
Proof.
  unfold difficulty_of.
  destruct (Qlt_le_dec (8 # 10) rate) as [H|H].
  - apply gt_num_spec in H. by rewrite H.
  - destruct (gt_num rate (8 # 10)) eqn:E.
    { apply gt_num_spec in E. lra. }
    destruct (Qlt_le_dec (5 # 10) rate) as [H'|H'].
    + apply gt_num_spec in H'. by rewrite H'.
    + destruct (gt_num rate (5 # 10)) eqn:E'; [|done].
      apply gt_num_spec in E'. lra.
Qed.

Lemma question_stat_returns (results : list result) (i : nat) :
  results <> [] ->
  question_stat results (length results) i = Returns (stat_of results i).
Proof.
  intros Hne.
  assert (Hlen : 0 < length results) by (destruct results; simpl; [done|lia]).
  unfold question_stat, stat_of. rewrite !truediv_pos by done. simpl.
  rewrite count_correct_filter.
  set (rate := (_ / _)%Q).
  pose proof (gt_num_difficulty rate) as Hd.
  destruct (gt_num rate (8 # 10)); simpl.
  - by rewrite <- Hd.
  - destruct (gt_num rate (5 # 10)); simpl; by rewrite <- Hd.
Qed.

Lemma for_each_map {A B} (f : A -> outcome B) (g : A -> B) (xs : list A) :
  (forall x, f x = Returns (g x)) -> for_each f xs = Returns (map g xs).
Proof.
  intros H. induction xs as [|x xs IH]; simpl; [done|].
  by rewrite H, IH.
Qed.

(** The summary of a batch that is not empty, written out. *)
Lemma summary_of_results (results : list result) (answer_key : list key_entry) :
  results <> [] ->
  exists highest lowest,
    Py.max (map score_or_0 results) = Returns highest /\
    Py.min (map score_or_0 results) = Returns lowest /\
    generate_batch_summary results answer_key
    = Returns (Summary (BatchSummary.mk
        (length results)
        (length answer_key)
        (round2 (mean (map score_or_0 results)))
        (round2 (percentage_of (mean (map score_or_0 results)) (length answer_key)))
        highest
        lowest
        (grade_counts results)
        (map (stat_of results) (seq 0 (length answer_key))))).
Proof.
  intros Hne.
  assert (Hlen : 0 < length results) by (destruct results; simpl; [done|lia]).
  assert (Hscores : map score_or_0 results <> []) by (by destruct results).
  destruct (max_spec _ Hscores) as (hi & Hhi & _).
  destruct (min_spec _ Hscores) as (lo & Hlo & _).
  exists hi, lo. split; [done|]. split; [done|].
  unfold generate_batch_summary. destruct results as [|r0 rest]; [done|].
  set (results := r0 :: rest) in *.
  apply Nat.ltb_lt in Hlen as Hltb. rewrite Hltb.
  rewrite truediv_pos by done. cbn [Py.bind].
  rewrite (for_each_map _ (stat_of results))
    by (intros i; by apply question_stat_returns).
  rewrite Hhi, Hlo. cbn [Py.bind].
  unfold mean, percentage_of. rewrite sum_sum_list, length_map.
  destruct (Nat.ltb_spec 0 (length answer_key)) as [Hkey|Hkey]; [|done].
  by rewrite truediv_pos.
Qed.

Lemma count_grade_lookup (m : gmap string nat) (r : result) (g : string) :
  count_grade m r !! g
  = if decide (grade_or_F r = g) then Some (default 0 (m !! g) + 1) else m !! g.
Proof.
  unfold count_grade. case_decide as Hg.
  - subst g. by rewrite lookup_insert_eq.
  - by rewrite lookup_insert_ne.
Qed.

Lemma grade_counts_from (results : list result) : forall (m : gmap string nat) g,
  fold_left count_grade results m !! g
  = match m !! g, counted_as g results with
    | None, 0 => None
    | o, n => Some (default 0 o + n)
    end.
Proof.
  unfold counted_as.
  induction results as [|r results IH]; intros m g; simpl.
  - destruct (m !! g); simpl; [f_equal; lia|done].
  - rewrite IH, count_grade_lookup, filter_cons.
    case_decide as Hg; simpl.
    + destruct (m !! g); simpl; f_equal; lia.
    + done.
Qed.

Lemma grade_counts_lookup (results : list result) (g : string) :
  grade_counts results !! g
  = match counted_as g results with 0 => None | n => Some n end.
Proof.
  unfold grade_counts. rewrite grade_counts_from, lookup_empty.
  by destruct (counted_as g results).
Qed.





(** Claim C6, as the code has it. For every non-empty results list,
    grade_distribution maps each letter grade to the number of results
    counted under that grade, where a result that carries no grade (the
    entry of a sheet whose scoring raised) counts under 'F', and a grade is
    a key only when that number is not 0. *)
Theorem grade_distribution_counts results answer_key :
  results <> [] ->
  exists b,
    generate_batch_summary results answer_key = Returns (Summary b) /\
    forall g,
      BatchSummary.grade_distribution b !! g
      = if decide (counted_as g results = 0) then None
        else Some (counted_as g results).
Proof.
  intros Hne.
  destruct (summary_of_results results answer_key Hne) as (hi & lo & _ & _ & ->).
  eexists. split; [reflexivity|]. simpl. intros g.
  rewrite grade_counts_lookup. by destruct (counted_as g results).
Qed.

(** Two sheets graded A+ and C-. *)
Lemma grade_distribution_counts_witness :
  exists b,
    generate_batch_summary two_results mixed_key = Returns (Summary b) /\
    BatchSummary.grade_distribution b !! "A+" = Some 1 /\
    BatchSummary.grade_distribution b !! "C-" = Some 1 /\
    BatchSummary.grade_distribution b !! "F" = None.
Proof.
  destruct (grade_distribution_counts two_results mixed_key) as (b & Hb & Hg);
    [discriminate|].
  exists b. split; [exact Hb|]. rewrite !Hg. by vm_compute.
Defined.

(** Claim C6 as it is stated fails on a batch whose only sheet could not be
    scored: no result carries the grade 'F', and 'F' is a key with count 1. *)
Lemma ungraded_result_counts_as_F :
  analyze_single_mcq_sheet JNull abc_key 1 = Raises TypeError /\
  graded "F" failed_results = 0 /\
  exists b,
    generate_batch_summary failed_results abc_key = Returns (Summary b) /\
    BatchSummary.grade_distribution b !! "F" = Some 1.
Proof.
  split; [by vm_compute|]. split; [by vm_compute|].
  eexists. split; [vm_compute; reflexivity|]. by vm_compute.
Qed.

Lemma summary_returns results answer_key :
  returns (generate_batch_summary results answer_key).
Proof.
  destruct results as [|r results]; [by eexists|].
  destruct (summary_of_results (r :: results) answer_key) as (hi & lo & _ & _ & H);
    [done|].
  by eexists.
Qed.

(** Claim C7, as the code has it. [generate_batch_summary] applied to an
    empty results list returns the empty summary [{}], which has no
    average_score, and [generate_batch_summary] never raises, whatever the
    results and the answer key: no division by zero is performed, neither by
    total_students nor by total_questions. *)
Theorem empty_batch_summary :
  (forall answer_key, generate_batch_summary [] answer_key = Returns EmptySummary) /\
  summary_average_score EmptySummary = None /\
  (forall results answer_key,
     exists s, generate_batch_summary results answer_key = Returns s).
Proof.
  split; [done|]. split; [done|].
  intros results answer_key. apply summary_returns.
Qed.

(** Claim C7 as it is stated fails on its last part: the summary of no
    results has no average_score, rather than the average_score 0. *)
Lemma empty_summary_has_no_average :
  exists s,
    generate_batch_summary [] abc_key = Returns s /\
    summary_average_score s = None /\
    summary_average_score s <> Some 0%Q.
Proof. exists EmptySummary. by repeat split. Qed.

(* ===================================================================== *)
(** * Properties of the batch endpoint *)
(* ===================================================================== *)

Lemma append_assoc (a b c : string) : (a +:+ b) +:+ c = a +:+ b +:+ c.
Proof.
  induction a as [|x a IH]; [done|].
  change (String x ((a +:+ b) +:+ c) = String x (a +:+ b +:+ c)). by f_equal.
Qed.

Lemma includes_here (needle after : string) : includes needle (needle +:+ after).
Proof. by exists "", after. Qed.

Lemma includes_later (needle before hay : string) :
  includes needle hay -> includes needle (before +:+ hay).
Proof.
  intros (b & a & ->). exists (before +:+ b), a. by rewrite append_assoc.
Qed.

Lemma substring_prefix (needle after : string) :
  String.substring 0 (String.length needle) (needle +:+ after) = needle.
Proof.
  induction needle as [|c needle IH].
  - by destruct after.
  - change (String c (String.substring 0 (String.length needle) (needle +:+ after))
            = String c needle).
    by f_equal.
Qed.

Lemma substring_later (before : string) (n : nat) (s : string) :
  String.substring (String.length before) n (before +:+ s) = String.substring 0 n s.
Proof.
  induction before as [|c before IH]; [done|].
  change (String.substring (String.length before) n (before +:+ s) = String.substring 0 n s).
  done.
Qed.

Lemma includes_index (needle hay : string) :
  needle <> "" -> includes needle hay -> String.index 0 needle hay <> None.
Proof.
  intros Hne (before & after & ->) Hnone.
  apply (String.index_correct3 0 (String.length before)) in Hnone; [|done|lia].
  apply Hnone. by rewrite substring_later, substring_prefix.
Qed.

Lemma limit_message_includes (user_plan : string) (max_analyses submitted : nat) :
  includes (str_of_nat max_analyses) (limit_message user_plan max_analyses submitted) /\
  includes (str_of_nat submitted) (limit_message user_plan max_analyses submitted).
Proof.
  unfold limit_message. split.
  - do 3 apply includes_later. apply includes_here.
  - do 5 apply includes_later. apply includes_here.
Qed.

Lemma get_mcq_limit_table (plan : string) :
  get_mcq_limit plan = table_limit (lower plan).
Proof.
  unfold table_limit.
  destruct (known_plan_limit plan) as (H1 & H2 & H3 & H4).
  repeat case_decide; auto using unknown_plan_limit.
Qed.

Lemma score_sheets_spec answer_key sheets : forall idx results calls,
  score_sheets answer_key idx sheets results calls
  = (results ++ imap (fun j => score_sheet answer_key (idx + j)) sheets,
     calls ++ seq (idx + 1) (length sheets)).
Proof.
  induction sheets as [|sheet sheets IH]; intros idx results calls; simpl.
  - by rewrite !app_nil_r.
  - rewrite IH, <- !app_assoc. simpl. rewrite Nat.add_0_r.
    replace (S idx + 1) with (S (idx + 1)) by lia.
    do 3 f_equal. apply imap_ext. intros j x _. simpl. f_equal. lia.
Qed.

(** The endpoint on a request that passes the first checks. *)
Lemma analyze_mcq_batch_valid analysis_id timestamp data answer_key sheets :
  valid_batch data answer_key sheets ->
  analyze_mcq_batch analysis_id timestamp data
  = if get_mcq_limit (plan_of data) <? length sheets then
      (Error400 (limit_message (plan_of data) (get_mcq_limit (plan_of data))
                   (length sheets)), [])
    else
      match generate_batch_summary (scored_batch answer_key sheets) answer_key with
      | Returns summary =>
          (Ok200 (BatchResponse.mk analysis_id
                    (default JNull (Request.answer_key_id data))
                    (length (scored_batch answer_key sheets)) timestamp summary
                    (scored_batch answer_key sheets)),
           seq 1 (length sheets))
      | Raises e => (Error500 e, seq 1 (length sheets))
      end.
Proof.
  intros ([kid Hid] & Hsheets & Hkey & Hne).
  unfold analyze_mcq_batch, plan_of. rewrite Hid, Hsheets, Hkey. simpl.
  destruct answer_key as [|k answer_key]; [done|].
  destruct (_ <? _); [done|].
  rewrite score_sheets_spec. simpl. done.
Qed.

(** Claim C8, as the code has it. The limit of a plan is the
    case-insensitive lookup in the table free 0, basic 0, standard 200,
    premium 500, with 0 for any other name, so that the limit of 'PREMIUM'
    is 500 and that of 'unknown' is 0. For every batch request that passes
    the checks made first (both identifying fields present, a non-empty
    answer key, student answers that are a list), with plan p ('free' when
    the request names none) and n student sheets, if n exceeds the limit of
    p the endpoint answers 400 with a message that includes the limit and n,
    and no sheet is scored. *)
Theorem plan_limit_rejects :
  (forall plan,
     get_mcq_limit plan = table_limit (lower plan) /\
     get_mcq_limit (upper plan) = get_mcq_limit plan /\
     get_mcq_limit (lower plan) = get_mcq_limit plan) /\
  get_mcq_limit "PREMIUM" = 500 /\
  get_mcq_limit "unknown" = 0 /\
  (forall analysis_id timestamp data answer_key sheets,
     valid_batch data answer_key sheets ->
     get_mcq_limit (plan_of data) < length sheets ->
     exists message,
       analyze_mcq_batch analysis_id timestamp data = (Error400 message, []) /\
       message = limit_message (plan_of data) (get_mcq_limit (plan_of data))
                   (length sheets) /\
       includes (str_of_nat (get_mcq_limit (plan_of data))) message /\
       includes (str_of_nat (length sheets)) message).
Proof.
  split; [|split; [done|split; [done|]]].
  - intros plan. split; [apply get_mcq_limit_table|].
    split; [apply lower_upper_limit|apply lower_lower_limit].
  - intros analysis_id timestamp data answer_key sheets Hvalid Hlimit.
    eexists. split; [|split; [reflexivity|apply limit_message_includes]].
    rewrite (analyze_mcq_batch_valid _ _ _ _ _ Hvalid).
    by apply Nat.ltb_lt in Hlimit as ->.
Qed.

(** One sheet on the free plan. *)
Lemma plan_limit_rejects_witness :
  analyze_mcq_batch "id" "now" free_request
  = (Error400 "Your free plan allows maximum 0 MCQ analyses. You submitted 1.", []).
Proof.
  destruct (proj2 (proj2 (proj2 plan_limit_rejects)) "id" "now" free_request
              abc_key [abc_sheet]) as (message & Hrun & -> & _).
  - repeat split; [by eexists|discriminate].
  - vm_compute. lia.
  - exact Hrun.
Defined.

(** Claim C8 as it is stated fails on a request over its limit that does
    not pass the checks made first: here the answer key is missing, and the
    message of the 400 answer includes neither the limit nor the count. *)
Lemma keyless_request_is_rejected_first :
  Request.student_answers keyless_request = Some (JArr [abc_sheet]) /\
  get_mcq_limit (plan_of keyless_request) = 0 /\
  analyze_mcq_batch "id" "now" keyless_request
  = (Error400 "Answer key is required", []) /\
  ~ includes (str_of_nat 0) "Answer key is required" /\
  ~ includes (str_of_nat 1) "Answer key is required".
Proof.
  repeat split; try by vm_compute.
  - intros H. by apply includes_index in H.
  - intros H. by apply includes_index in H.
Qed.

(** The [student_id] is only copied into the result. *)
Lemma analyze_student_id student_answers answer_key student_id student_id' :
  analyze_single_mcq_sheet student_answers answer_key student_id'
  = match analyze_single_mcq_sheet student_answers answer_key student_id with
    | Returns r =>
        Returns (SheetResult.mk student_id' (SheetResult.score r)
          (SheetResult.total_questions r) (SheetResult.score_percentage r)
          (SheetResult.correct_answers r) (SheetResult.wrong_answers r)
          (SheetResult.unanswered r) (SheetResult.mistakes r) (SheetResult.grade r))
    | Raises e => Raises e
    end.
Proof.
  unfold analyze_single_mcq_sheet.
  destruct (score_questions _ _ _ _) as [acc|e]; simpl; [|done].
  destruct (0 <? length answer_key); simpl; [|done].
  by destruct (truediv _ _).
Qed.

Lemma renumber_score_sheet answer_key j j' sheet :
  renumber (j' + 1) (score_sheet answer_key j sheet) = score_sheet answer_key j' sheet.
Proof.
  unfold score_sheet.
  rewrite (analyze_student_id sheet answer_key (j + 1) (j' + 1)).
  by destruct (analyze_single_mcq_sheet sheet answer_key (j + 1)).
Qed.

Lemma lookup_skip (before after : list json) (bad : json) (j : nat) :
  (before ++ bad :: after) !! skip before j = (before ++ after) !! j.
Proof.
  unfold skip. destruct (Nat.ltb_spec j (length before)).
  - by rewrite !lookup_app_l.
  - rewrite !lookup_app_r by lia.
    by replace (S j - length before) with (S (j - length before)) by lia.
Qed.

Lemma valid_with_sheets data answer_key sheets sheets' :
  valid_batch data answer_key sheets ->
  valid_batch (with_sheets data sheets') answer_key sheets'.
Proof. intros (Hid & _ & Hkey & Hne). by repeat split. Qed.

(** The endpoint on a valid request within its limit: every sheet gets its
    own result, at its own position. *)
Lemma analyze_mcq_batch_ok analysis_id timestamp data answer_key sheets :
  valid_batch data answer_key sheets ->
  length sheets <= get_mcq_limit (plan_of data) ->
  exists body,
    analyze_mcq_batch analysis_id timestamp data = (Ok200 body, seq 1 (length sheets)) /\
    BatchResponse.individual_results body = scored_batch answer_key sheets.
Proof.
  intros Hvalid Hlimit.
  rewrite (analyze_mcq_batch_valid _ _ _ _ _ Hvalid).
  apply Nat.ltb_ge in Hlimit as ->.
  destruct (summary_returns (scored_batch answer_key sheets) answer_key) as [s ->].
  by eexists.
Qed.

(** Claim C9, as the code has it. For every valid batch within its plan
    limit, if scoring one student sheet raises an error, the endpoint still
    answers 200 with one result per sheet, every sheet scored once: the
    entry { student_id, error, score: 0, total_questions } stands in place
    of the bad sheet's result, every sheet has the result of its own
    scoring at its own position, and every other sheet's result is the one
    it has in the batch without the bad sheet, with the student_id of its
    position in the submitted batch. *)
Theorem failed_sheet_is_isolated analysis_id timestamp data answer_key
    before bad after e :
  valid_batch data answer_key (before ++ bad :: after) ->
  length (before ++ bad :: after) <= get_mcq_limit (plan_of data) ->
  analyze_single_mcq_sheet bad answer_key (length before + 1) = Raises e ->
  exists body body',
    analyze_mcq_batch analysis_id timestamp data
    = (Ok200 body, seq 1 (length (before ++ bad :: after))) /\
    length (BatchResponse.individual_results body)
    = length (before ++ bad :: after) /\
    BatchResponse.individual_results body !! length before
    = Some (Failed (ErrorEntry.mk (length before + 1) (length before + 1, e) 0
                      (length answer_key))) /\
    (forall j sheet,
       (before ++ bad :: after) !! j = Some sheet ->
       BatchResponse.individual_results body !! j
       = Some (score_sheet answer_key j sheet)) /\
    analyze_mcq_batch analysis_id timestamp (with_sheets data (before ++ after))
    = (Ok200 body', seq 1 (length (before ++ after))) /\
    (forall j,
       BatchResponse.individual_results body !! skip before j
       = renumber (skip before j + 1)
           <$> BatchResponse.individual_results body' !! j).
Proof.
  intros Hvalid Hlimit Hbad.
  destruct (analyze_mcq_batch_ok analysis_id timestamp data answer_key _ Hvalid Hlimit)
    as (body & Hrun & Hres).
  destruct (analyze_mcq_batch_ok analysis_id timestamp
              (with_sheets data (before ++ after)) answer_key (before ++ after))
    as (body' & Hrun' & Hres').
  { eapply valid_with_sheets, Hvalid. }
  { etrans; [|exact Hlimit]. rewrite !length_app. simpl. lia. }
  exists body, body'. rewrite Hres, Hres'. unfold scored_batch.
  split; [exact Hrun|]. split; [apply length_imap|].
  split; [|split; [|split; [exact Hrun'|]]].
  - rewrite list_lookup_imap, list_lookup_middle by done. simpl.
    unfold score_sheet. by rewrite Hbad.
  - intros j sheet Hj. by rewrite list_lookup_imap, Hj.
  - intros j. rewrite !list_lookup_imap, lookup_skip.
    destruct ((before ++ after) !! j) as [sheet|]; simpl; [|done].
    by rewrite renumber_score_sheet.
Qed.

(** A [null] sheet in front of the sample sheet. *)
Lemma failed_sheet_is_isolated_witness :
  exists body body',
    analyze_mcq_batch "id" "now" spoiled_request = (Ok200 body, [1; 2]) /\
    length (BatchResponse.individual_results body) = 2 /\
    BatchResponse.individual_results body !! 0
    = Some (Failed (ErrorEntry.mk 1 (1, TypeError) 0 3)) /\
    (forall j sheet,
       [JNull; abc_sheet] !! j = Some sheet ->
       BatchResponse.individual_results body !! j
       = Some (score_sheet abc_key j sheet)) /\
    analyze_mcq_batch "id" "now" clean_request = (Ok200 body', [1]) /\
    (forall j,
       BatchResponse.individual_results body !! S j
       = renumber (S j + 1) <$> BatchResponse.individual_results body' !! j).
Proof.
  apply (failed_sheet_is_isolated "id" "now" spoiled_request abc_key
           [] JNull [abc_sheet] TypeError).
  - repeat split; [by eexists|discriminate].
  - vm_compute. lia.
  - vm_compute. reflexivity.
Defined.

(** Claim C9 as it is stated fails on the student_id: the sample sheet is
    student 2 behind a [null] sheet and student 1 without it. *)
Lemma later_sheet_is_renumbered :
  analyze_single_mcq_sheet JNull abc_key 1 = Raises TypeError /\
  exists results results' r r',
    results_of (fst (analyze_mcq_batch "id" "now" spoiled_request)) = Some results /\
    results_of (fst (analyze_mcq_batch "id" "now" clean_request)) = Some results' /\
    results !! 1 = Some r /\
    results' !! 0 = Some r' /\
    get_student_id r = 2 /\
    get_student_id r' = 1 /\
    r <> r'.
Proof.
  split; [by vm_compute|].
  eexists _, _, _, _.
  split; [vm_compute; reflexivity|].
  split; [vm_compute; reflexivity|].
  split; [reflexivity|]. split; [reflexivity|].
  split; [reflexivity|]. split; [reflexivity|].
  intros H. discriminate H.
Qed.

(* ===================================================================== *)
(** * What the scorer reads of a sheet and of a key *)
(* ===================================================================== *)

Lemma upper_upper_char (c : ascii) : upper_char (upper_char c) = upper_char c.
Proof. destruct c as [[] [] [] [] [] [] [] []]; reflexivity. Qed.

Lemma upper_upper (s : string) : upper (upper s) = upper s.
Proof. induction s as [|c s IH]; simpl; [done|]. by rewrite upper_upper_char, IH. Qed.

Lemma upper_lower_char (c : ascii) : upper_char (lower_char c) = upper_char c.
Proof. destruct c as [[] [] [] [] [] [] [] []]; reflexivity. Qed.

Lemma upper_lower (s : string) : upper (lower s) = upper s.
Proof. induction s as [|c s IH]; simpl; [done|]. by rewrite upper_lower_char, IH. Qed.

Lemma score_question_ext student_answers student_answers' i k k' acc :
  student_answer_at student_answers i = student_answer_at student_answers' i ->
  correct_at k = correct_at k' ->
  score_question student_answers i k acc = score_question student_answers' i k' acc.
Proof.
  unfold student_answer_at, correct_at, score_question. intros H1 H2.
  destruct (student_value student_answers i) as [raw|e];
    destruct (student_value student_answers' i) as [raw'|e']; simpl in *.
  - by rewrite H1, H2.
  - by rewrite H1.
  - by rewrite <- H1.
  - by injection H1 as ->.
Qed.

Lemma score_questions_ext student_answers student_answers' rest :
  forall rest' i acc,
  length rest = length rest' ->
  (forall j, j < length rest ->
     student_answer_at student_answers (i + j)
     = student_answer_at student_answers' (i + j)) ->
  (forall j k k', rest !! j = Some k -> rest' !! j = Some k' ->
     correct_at k = correct_at k') ->
  score_questions student_answers i rest acc
  = score_questions student_answers' i rest' acc.
Proof.
  induction rest as [|k rest IH]; intros [|k' rest'] i acc Hlen Hs Hk;
    simpl in *; try done.
  rewrite (score_question_ext student_answers student_answers' i k k').
  - destruct (score_question student_answers' i k' acc) as [acc'|e]; simpl; [|done].
    apply IH.
    + lia.
    + intros j Hj. specialize (Hs (S j)).
      replace (i + S j) with (S i + j) in Hs by lia. apply Hs. lia.
    + intros j k1 k1' H1 H1'. by apply (Hk (S j)).
  - specialize (Hs 0). rewrite Nat.add_0_r in Hs. apply Hs. lia.
  - by apply (Hk 0).
Qed.

(** The result depends on the sheet and on the key only through the values
    the scorer compares. *)
Lemma analyze_ext student_answers student_answers' answer_key answer_key' student_id :
  length answer_key = length answer_key' ->
  (forall j, j < length answer_key ->
     student_answer_at student_answers j = student_answer_at student_answers' j) ->
  (forall j k k', answer_key !! j = Some k -> answer_key' !! j = Some k' ->
     correct_at k = correct_at k') ->
  analyze_single_mcq_sheet student_answers answer_key student_id
  = analyze_single_mcq_sheet student_answers' answer_key' student_id.
Proof.
  intros Hlen Hs Hk. unfold analyze_single_mcq_sheet.
  rewrite (score_questions_ext student_answers student_answers' answer_key
             answer_key' 0 Tally.zero Hlen) by done.
  by rewrite Hlen.
Qed.

Lemma get_none_ge (t : string) (i : nat) :
  String.get i t = None -> String.length t <= i.
Proof.
  revert i. induction t as [|a t IH]; intros [|i]; simpl; try done; try lia.
  intros H. apply IH in H. lia.
Qed.

Lemma student_answer_readable student_answers i :
  readable student_answers i
  <-> exists s, student_answer_at student_answers i = Returns s.
Proof.
  unfold student_answer_at.
  destruct student_answers as [| | | t | items | d]; simpl;
    try (split; [done|by intros [s Hs]]).
  - split; [intros _|done].
    destruct (Nat.ltb_spec i (String.length t)); simpl; [|by eexists].
    unfold char_at. destruct (String.get i t) eqn:E; simpl; [by eexists|].
    exfalso. apply (get_none_ge t i) in E. lia.
  - destruct (Nat.ltb_spec i (length items)) as [Hlt|Hge]; simpl.
    + unfold item. destruct (items !! i) as [v|] eqn:E; simpl.
      * destruct v; simpl; split; try done; try (by intros [s Hs]); by eexists.
      * apply lookup_ge_None in E. lia.
    + apply lookup_ge_None in Hge as ->. simpl. split; [by eexists|done].
  - destruct (d !! str_of_nat (i + 1)) as [v|]; simpl.
    + destruct v; simpl; split; try done; try (by intros [s Hs]); by eexists.
    + split; [by eexists|done].
Qed.

Lemma correct_readable k :
  key_readable k <-> exists c, correct_at k = Returns c.
Proof.
  unfold correct_at. destruct k as [d|shown]; simpl.
  - destruct (d !! "correct_answer") as [v|]; simpl.
    + destruct v; simpl; split; try (by intros [c Hc]); intros [c Hc];
        try done; by eexists.
    + split; by intros [c Hc].
  - split; [by eexists|done].
Qed.

Lemma score_question_returns student_answers i k acc :
  (exists acc', score_question student_answers i k acc = Returns acc')
  <-> (exists s, student_answer_at student_answers i = Returns s)
      /\ (exists c, correct_at k = Returns c).
Proof.
  unfold student_answer_at, correct_at. split.
  - intros [acc' H].
    apply score_question_cases in H as (raw & s & c & -> & Hs & Hc & _).
    simpl. by eauto.
  - intros [[s Hs] [c Hc]]. unfold score_question.
    destruct (student_value student_answers i) as [raw|e]; simpl in *; [|done].
    rewrite Hs, Hc. simpl. repeat case_bool_decide; by eexists.
Qed.

Lemma score_questions_returns student_answers rest : forall i acc,
  (exists acc', score_questions student_answers i rest acc = Returns acc')
  <-> forall j k, rest !! j = Some k ->
        readable student_answers (i + j) /\ key_readable k.
Proof.
  induction rest as [|k rest IH]; intros i acc; simpl.
  - split; [done|by eexists].
  - split.
    + intros [acc' H].
      destruct (score_question student_answers i k acc) as [acc1|e] eqn:E1;
        simpl in H; [|done].
      assert (Hstep : exists a, score_question student_answers i k acc = Returns a)
        by by eexists.
      apply score_question_returns in Hstep as [Hs Hc].
      assert (Hrest : exists a,
                score_questions student_answers (S i) rest acc1 = Returns a)
        by by eexists.
      pose proof (proj1 (IH (S i) acc1) Hrest) as Hall.
      intros [|j] k' Hj; simpl in Hj.
      * injection Hj as <-. rewrite Nat.add_0_r.
        split; [by apply student_answer_readable|by apply correct_readable].
      * replace (i + S j) with (S i + j) by lia. by apply Hall.
    + intros Hall.
      destruct (Hall 0 k eq_refl) as [Hs Hc]. rewrite Nat.add_0_r in Hs.
      apply student_answer_readable in Hs. apply correct_readable in Hc.
      destruct (proj2 (score_question_returns student_answers i k acc))
        as [acc1 ->]; [done|]. simpl.
      apply (proj2 (IH (S i) acc1)). intros j k' Hj. specialize (Hall (S j) k' Hj).
      by replace (i + S j) with (S i + j) in Hall by lia.
Qed.

(** X1. [analyze_single_mcq_sheet] returns a result exactly when the sheet
    can be read at every question of the key (it is a dict, a list or a
    string, and what it holds for the question, if anything, is a string) and
    every dict entry of the key has a string under 'correct_answer'; in every
    other case it raises, and the endpoint stores an error entry. *)
Theorem scorer_returns_iff_readable student_answers answer_key student_id :
  (exists r,
     analyze_single_mcq_sheet student_answers answer_key student_id = Returns r)
  <-> forall i k, answer_key !! i = Some k ->
        readable student_answers i /\ key_readable k.
Proof.
  rewrite <- (score_questions_returns student_answers answer_key 0 Tally.zero).
  unfold analyze_single_mcq_sheet. split.
  - intros [r H].
    destruct (score_questions student_answers 0 answer_key Tally.zero) as [acc|e];
      [by eexists|done].
  - intros [acc ->]. simpl.
    destruct (Nat.ltb_spec 0 (length answer_key)); simpl; [|by eexists].
    rewrite truediv_pos by done. simpl. by eexists.
Qed.

Lemma student_answer_list items i :
  student_answer_at (JArr items) i
  = match items !! i with
    | Some v => call_upper v
    | None => Returns ""
    end.
Proof.
  unfold student_answer_at. simpl.
  destruct (Nat.ltb_spec i (length items)) as [Hlt|Hge]; simpl.
  - unfold item. destruct (items !! i) eqn:E; simpl; [done|].
    apply lookup_ge_None in E. lia.
  - by apply lookup_ge_None in Hge as ->.
Qed.

Lemma student_answer_dict d i :
  student_answer_at (JObj d) i
  = match d !! str_of_nat (i + 1) with
    | Some v => call_upper v
    | None => Returns ""
    end.
Proof. unfold student_answer_at. simpl. by destruct (d !! str_of_nat (i + 1)). Qed.

Lemma student_answer_string t i :
  student_answer_at (JStr t) i
  = match String.get i t with
    | Some c => Returns (upper (String c EmptyString))
    | None => Returns ""
    end.
Proof.
  unfold student_answer_at. simpl.
  destruct (Nat.ltb_spec i (String.length t)) as [Hlt|Hge]; simpl.
  - unfold char_at. destruct (String.get i t) eqn:E; simpl; [done|].
    apply get_none_ge in E. lia.
  - destruct (String.get i t) eqn:E; [|done]. apply get_lt in E. lia.
Qed.

Lemma letters_lookup t i :
  letters t !! i = (fun c => JStr (String c EmptyString)) <$> String.get i t.
Proof.
  revert i. induction t as [|c t IH]; intros [|i]; simpl; done.
Qed.

(** X2. A list sheet is read up to the length of the key: the answers
    beyond it change nothing in the result. *)
Theorem answers_beyond_key_ignored items extra answer_key student_id :
  length answer_key <= length items ->
  analyze_single_mcq_sheet (JArr (items ++ extra)) answer_key student_id
  = analyze_single_mcq_sheet (JArr items) answer_key student_id.
Proof.
  intros Hlen. apply analyze_ext; [done| |].
  - intros j Hj. rewrite !student_answer_list.
    by rewrite lookup_app_l by lia.
  - intros j k k' Hk Hk'. congruence.
Qed.

(** The sample sheet with two more answers, against the sample key. *)
Lemma answers_beyond_key_ignored_witness :
  analyze_single_mcq_sheet (JArr ([JStr "A"; JStr "C"; JStr ""] ++ [JStr "D"; JNull]))
    abc_key 1
  = analyze_single_mcq_sheet abc_sheet abc_key 1.
Proof.
  apply (answers_beyond_key_ignored [JStr "A"; JStr "C"; JStr ""]
           [JStr "D"; JNull] abc_key 1).
  simpl. lia.
Defined.

(** X3. A missing answer and an empty answer are the same to the scorer: a
    list sheet padded with empty strings has the result of the sheet
    itself, whatever the key. *)
Theorem padding_with_empty_answers items n answer_key student_id :
  analyze_single_mcq_sheet (JArr (items ++ replicate n (JStr ""))) answer_key student_id
  = analyze_single_mcq_sheet (JArr items) answer_key student_id.
Proof.
  apply analyze_ext; [done| |].
  - intros j Hj. rewrite !student_answer_list.
    destruct (Nat.lt_ge_cases j (length items)) as [Hlt|Hge].
    + by rewrite lookup_app_l.
    + rewrite lookup_app_r by done.
      rewrite (proj2 (lookup_ge_None items j)) by done.
      destruct (replicate n (JStr "") !! (j - length items)) as [v|] eqn:E; [|done].
      by apply lookup_replicate in E as [-> _].
  - intros j k k' Hk Hk'. congruence.
Qed.

(** X4. A dict sheet and a list sheet that hold the same value for every
    question of the key, the dict under the question number and the list at
    its position, have the same result. *)
Theorem dict_sheet_as_list d items answer_key student_id :
  (forall i, i < length answer_key -> d !! str_of_nat (i + 1) = items !! i) ->
  analyze_single_mcq_sheet (JObj d) answer_key student_id
  = analyze_single_mcq_sheet (JArr items) answer_key student_id.
Proof.
  intros Hsame. apply analyze_ext; [done| |].
  - intros j Hj. by rewrite student_answer_dict, student_answer_list, Hsame.
  - intros j k k' Hk Hk'. congruence.
Qed.

(** The dict sheet against the list of its two answers. *)
Lemma dict_sheet_as_list_witness :
  analyze_single_mcq_sheet dict_sheet mixed_key 3
  = analyze_single_mcq_sheet (JArr [JStr "B"; JStr "c"]) mixed_key 3.
Proof.
  apply (dict_sheet_as_list {[ "1" := JStr "B"; "2" := JStr "c" ]}
           [JStr "B"; JStr "c"] mixed_key 3).
  intros [|[|i]] Hi; simpl in Hi; [by vm_compute|by vm_compute|lia].
Defined.

(** X5. A sheet that is a string is read one character per question: it has
    the result of the list of its characters. *)
Theorem string_sheet_as_list t answer_key student_id :
  analyze_single_mcq_sheet (JStr t) answer_key student_id
  = analyze_single_mcq_sheet (JArr (letters t)) answer_key student_id.
Proof.
  apply analyze_ext; [done| |].
  - intros j Hj. rewrite student_answer_string, student_answer_list, letters_lookup.
    by destruct (String.get j t).
  - intros j k k' Hk Hk'. congruence.
Qed.

Section Recase.
Variable f : string -> string.
Variable fc : ascii -> ascii.
Hypothesis f_nil : f "" = "".
Hypothesis f_cons : forall c s, f (String c s) = String (fc c) (f s).
Hypothesis fc_upper : forall c, upper_char (fc c) = upper_char c.







End Recase.


(* ===================================================================== *)
(** * What a sheet result holds *)
(* ===================================================================== *)

(** Induction over the scoring loop: a property of the accumulators kept by
    every iteration that returns holds when the loop returns. *)
Lemma score_questions_keeps student_answers (answer_key : list key_entry)
    (P : nat -> Tally.t -> Prop) :
  (forall i k acc acc',
     answer_key !! i = Some k -> P i acc ->
     score_question student_answers i k acc = Returns acc' -> P (S i) acc') ->
  forall rest i acc acc',
    (forall j k, rest !! j = Some k -> answer_key !! (i + j) = Some k) ->
    P i acc ->
    score_questions student_answers i rest acc = Returns acc' ->
    P (i + length rest) acc'.
Proof.
  intros Hstep. induction rest as [|k rest IH]; intros i acc acc' Hkey HP Hrun;
    simpl in *.
  - injection Hrun as <-. by rewrite Nat.add_0_r.
  - destruct (score_question student_answers i k acc) as [acc1|e] eqn:E;
      simpl in Hrun; [|done].
    replace (i + S (length rest)) with (S i + length rest) by lia.
    apply (IH (S i) acc1); [|
      |done].
    + intros j k' Hj. replace (S i + j) with (i + S j) by lia. by apply Hkey.
    + apply (Hstep i k acc); [|done|done].
      specialize (Hkey 0 k eq_refl). by rewrite Nat.add_0_r in Hkey.
Qed.

Lemma faithful_step student_answers answer_key i k acc acc' :
  answer_key !! i = Some k ->
  Forall (faithful student_answers answer_key) (Tally.mistakes acc) ->
  score_question student_answers i k acc = Returns acc' ->
  Forall (faithful student_answers answer_key) (Tally.mistakes acc').
Proof.
  intros Hk Hall Hstep.
  apply score_question_cases in Hstep
    as (raw & s & c & Hraw & Hs & Hc &
        [(-> & ->) | [(Hne & <- & ->) | (Hne & Hsc & text & ->)]]);
    simpl; [|done|].
  - apply Forall_app. split; [done|]. apply Forall_singleton.
    unfold faithful, student_answer_at. simpl.
    replace (i + 1 - 1) with i by lia. rewrite Hraw. simpl.
    split; [by exists k|done].
  - apply Forall_app. split; [done|]. apply Forall_singleton.
    unfold faithful, student_answer_at. simpl.
    replace (i + 1 - 1) with i by lia. rewrite Hraw. simpl.
    split; [by exists k|done].
Qed.

Lemma call_upper_upper v s : call_upper v = Returns s -> upper s = s.
Proof. destruct v; simpl; try done. intros [= <-]. apply upper_upper. Qed.

(** X7. Every entry of [mistakes] tells what the sheet and the key hold for
    its question: its correct_answer is the correct answer read from the
    key entry, in upper case, and its student_answer is the student's
    answer, in upper case; an 'unanswered' entry has the empty
    student_answer, an 'incorrect' entry a non-empty student_answer that is
    not the correct_answer. *)
Theorem mistakes_are_faithful student_answers answer_key student_id r :
  analyze_single_mcq_sheet student_answers answer_key student_id = Returns r ->
  forall m, m ∈ SheetResult.mistakes r ->
    let i := Mistake.question_number m - 1 in
    (exists k, answer_key !! i = Some k /\
               correct_at k = Returns (Mistake.correct_answer m)) /\
    student_answer_at student_answers i = Returns (Mistake.student_answer m) /\
    upper (Mistake.correct_answer m) = Mistake.correct_answer m /\
    upper (Mistake.student_answer m) = Mistake.student_answer m /\
    match Mistake.type m with
    | Mistake.Unanswered => Mistake.student_answer m = ""
    | Mistake.Incorrect =>
        Mistake.student_answer m <> "" /\
        Mistake.student_answer m <> Mistake.correct_answer m
    end.
Proof.
  intros Hrun m Hm.
  apply analyze_returns in Hrun as (acc & pct & Hrun & ->). simpl in Hm.
  assert (Hall : Forall (faithful student_answers answer_key) (Tally.mistakes acc)).
  { apply (score_questions_keeps student_answers answer_key
             (fun _ a => Forall (faithful student_answers answer_key) (Tally.mistakes a)))
      in Hrun; [done| | |].
    - intros i k a a'. apply faithful_step.
    - by intros j k Hj.
    - constructor. }
  apply (proj1 (Forall_forall _ _) Hall) in Hm as ((k & Hk & Hc) & Hs & Ht).
  split; [by exists k|]. split; [done|].
  split; [by apply (call_upper_upper _ _ Hc)|]. split; [|done].
  unfold student_answer_at in Hs.
  destruct (student_value student_answers (Mistake.question_number m - 1));
    simpl in Hs; [|done].
  by apply (call_upper_upper _ _ Hs).
Qed.

(** The sample sheet: its two mistakes. *)
Lemma mistakes_are_faithful_witness :
  exists r,
    analyze_single_mcq_sheet abc_sheet abc_key 1 = Returns r /\
    forall m, m ∈ SheetResult.mistakes r ->
      upper (Mistake.correct_answer m) = Mistake.correct_answer m /\
      match Mistake.type m with
      | Mistake.Unanswered => Mistake.student_answer m = ""
      | Mistake.Incorrect =>
          Mistake.student_answer m <> "" /\
          Mistake.student_answer m <> Mistake.correct_answer m
      end.
Proof.
  eexists. split; [vm_compute; reflexivity|].
  intros m Hm.
  destruct (mistakes_are_faithful abc_sheet abc_key 1 _ eq_refl m Hm)
    as (_ & _ & Hup & _ & Ht).
  by split.
Defined.

Lemma round2_between (x : Q) (a b : Z) :
  (inject_Z a <= x)%Q -> (x <= inject_Z b)%Q ->
  (inject_Z a <= round2 x)%Q /\ (round2 x <= inject_Z b)%Q.
Proof.
  intros Ha Hb. unfold round2.
  set (y := (x * 100)%Q).
  assert (Hya : (inject_Z (100 * a) <= y)%Q).
  { unfold y. rewrite inject_Z_mult. change (inject_Z 100) with 100%Q. lra. }
  assert (Hyb : (y <= inject_Z (100 * b))%Q).
  { unfold y. rewrite inject_Z_mult. change (inject_Z 100) with 100%Q. lra. }
  assert (Hfa : (100 * a <= Qfloor y)%Z).
  { rewrite <- (Qfloor_Z (100 * a)). by apply Qfloor_resp_le. }
  assert (Hfb : (Qfloor y <= 100 * b)%Z).
  { rewrite <- (Qfloor_Z (100 * b)). by apply Qfloor_resp_le. }
  assert (Hr : (100 * a <= round_half_even y <= 100 * b)%Z).
  { unfold round_half_even.
    assert (Hup : (inject_Z (Qfloor y) < y)%Q -> (Qfloor y + 1 <= 100 * b)%Z).
    { intros Hlt. assert (Hlt' : (inject_Z (Qfloor y) < inject_Z (100 * b))%Q)
        by (eapply Qlt_le_trans; eauto).
      rewrite <- Zlt_Qlt in Hlt'. lia. }
    destruct (Qcompare_spec (y - inject_Z (Qfloor y)) (1 # 2)) as [He|Hl|Hg].
    - destruct (Z.even (Qfloor y)); [lia|].
      split; [lia|]. apply Hup. lra.
    - lia.
    - split; [lia|]. apply Hup. lra. }
  destruct Hr as [Hra Hrb].
  rewrite Zle_Qle in Hra, Hrb. rewrite inject_Z_mult in Hra, Hrb.
  change (inject_Z 100) with 100%Q in *.
  generalize dependent (inject_Z (round_half_even y)).
  generalize (inject_Z a), (inject_Z b). clear.
  intros qa qb r Hra Hrb. split.
  - apply Qle_shift_div_l; [reflexivity|lra].
  - apply Qle_shift_div_r; [reflexivity|lra].
Qed.

Lemma of_nat_le (a b : nat) : a <= b -> (of_nat a <= of_nat b)%Q.
Proof. intros H. unfold of_nat. rewrite <- Zle_Qle. lia. Qed.

Lemma of_nat_0_lt (n : nat) : 0 < n -> (0 < of_nat n)%Q.
Proof. intros H. unfold of_nat. change 0%Q with (inject_Z 0). rewrite <- Zlt_Qlt. lia. Qed.

(** A part of a whole, as a percentage, lies between 0 and 100. *)
Lemma percent_between (c t : nat) :
  c <= t -> 0 < t ->
  (0 <= of_nat c / of_nat t * 100)%Q /\ (of_nat c / of_nat t * 100 <= 100)%Q.
Proof.
  intros Hc Ht. pose proof (of_nat_0_lt t Ht) as Hpos.
  pose proof (of_nat_le c t Hc) as Hle.
  pose proof (of_nat_le 0 c (Nat.le_0_l c)) as H0. change (of_nat 0) with 0%Q in H0.
  assert (H1 : (0 <= of_nat c / of_nat t)%Q).
  { apply Qle_shift_div_l; [done|]. lra. }
  assert (H2 : (of_nat c / of_nat t <= 1)%Q).
  { apply Qle_shift_div_r; [done|]. lra. }
  split; lra.
Qed.

Lemma of_nat_mul (a b : nat) : (of_nat (a * b) == of_nat a * of_nat b)%Q.
Proof. unfold of_nat. by rewrite Nat2Z.inj_mul, inject_Z_mult. Qed.

(** A percentage reaches the whole number [n] exactly when the part reaches
    [n] hundredths of the whole. *)
Lemma percent_ge (c t n : nat) :
  0 < t ->
  (of_nat n <= of_nat c / of_nat t * 100)%Q <-> n * t <= 100 * c.
Proof.
  intros Ht. pose proof (of_nat_0_lt t Ht) as Hpos.
  assert (Hne : ~ (of_nat t == 0)%Q) by lra.
  rewrite <- (Qmult_le_r _ _ (of_nat t) Hpos).
  assert (Heq : (of_nat c / of_nat t * 100 * of_nat t == of_nat (100 * c))%Q).
  { rewrite of_nat_mul. change (of_nat 100) with 100%Q. field. exact Hne. }
  rewrite Heq, <- of_nat_mul. unfold of_nat. rewrite <- Zle_Qle. lia.
Qed.

(** The percentage and the grade of a result, from its score. *)
Lemma analyze_percentage student_answers answer_key student_id r :
  analyze_single_mcq_sheet student_answers answer_key student_id = Returns r ->
  let pct :=
    if 0 <? length answer_key
    then (of_nat (SheetResult.score r) / of_nat (length answer_key) * 100)%Q
    else 0%Q in
  SheetResult.score_percentage r = round2 pct /\
  SheetResult.grade r = calculate_grade pct.
Proof.
  unfold analyze_single_mcq_sheet. intros H.
  destruct (score_questions _ _ _ _) as [acc|e]; simpl in H; [|done].
  destruct (Nat.ltb_spec 0 (length answer_key)) as [Hlt|Hge]; simpl in H.
  - rewrite truediv_pos in H by done. simpl in H. by injection H as <-.
  - by injection H as <-.
Qed.

(** X8. In every result of the scorer the score is at most total_questions
    and score_percentage lies between 0 and 100; the grade is 'F' exactly
    when the key is empty or fewer than 45 in 100 answers are right, and
    'A+' exactly when the key is not empty and at least 90 in 100 are. *)
Theorem sheet_result_bounds student_answers answer_key student_id r :
  analyze_single_mcq_sheet student_answers answer_key student_id = Returns r ->
  SheetResult.score r <= SheetResult.total_questions r /\
  (0 <= SheetResult.score_percentage r)%Q /\
  (SheetResult.score_percentage r <= 100)%Q /\
  (SheetResult.grade r = "F"
   <-> SheetResult.total_questions r = 0
       \/ 100 * SheetResult.score r < 45 * SheetResult.total_questions r) /\
  (SheetResult.grade r = "A+"
   <-> 0 < SheetResult.total_questions r
       /\ 90 * SheetResult.total_questions r <= 100 * SheetResult.score r).
Proof.
  intros Hrun.
  destruct (analyze_percentage _ _ _ _ Hrun) as [Hpct Hgrade].
  destruct (analyze_scored _ _ _ _ Hrun) as [Htot _ _ _ _ _ _ _ _]; simpl in Htot.
  pose proof Hrun as Hret.
  apply analyze_returns in Hret as (acc & pct & _ & Hr).
  assert (Hscore : SheetResult.score r = SheetResult.correct_answers r) by by subst r.
  assert (Htq : SheetResult.total_questions r = length answer_key) by by subst r.
  clear Hr. rewrite Htq, Hpct, Hgrade.
  assert (Hle : SheetResult.score r <= length answer_key) by lia.
  split; [done|].
  destruct (Nat.ltb_spec 0 (length answer_key)) as [Hlt|Hge].
  - destruct (percent_between _ _ Hle Hlt) as [H0 H100].
    set (p := (of_nat (SheetResult.score r) / of_nat (length answer_key) * 100)%Q) in *.
    destruct (round2_between p 0 100 H0 H100) as [Hr0 Hr100].
    split; [done|]. split; [done|].
    pose proof (percent_ge (SheetResult.score r) (length answer_key) 45 Hlt) as H45.
    pose proof (percent_ge (SheetResult.score r) (length answer_key) 90 Hlt) as H90.
    fold p in H45, H90. change (of_nat 45) with 45%Q in H45.
    change (of_nat 90) with 90%Q in H90.
    split.
    + split.
      * intros HF. right.
        pose proof (calculate_grade_sound p) as Hg. rewrite HF in Hg.
        inversion Hg as [| | | | | | | | | |Hlow].
        destruct (Nat.le_gt_cases (45 * length answer_key)
                    (100 * SheetResult.score r)) as [Hc|Hc]; [|done].
        apply H45 in Hc. lra.
      * intros [Hz|Hc]; [lia|].
        apply calculate_grade_complete, grade_F.
        apply Qnot_le_lt. intros Hc'. apply H45 in Hc'. lia.
    + split.
      * intros HA. split; [done|].
        pose proof (calculate_grade_sound p) as Hg. rewrite HA in Hg.
        inversion Hg as [Hhigh| | | | | | | | | |]. by apply H90.
      * intros [_ Hc]. apply calculate_grade_complete, grade_A_plus.
        by apply H90.
  - assert (Hz : length answer_key = 0) by lia. rewrite Hz.
    split; [done|]. split; [done|].
    split; [split; [by left|by vm_compute]|].
    split; [intros H; vm_compute in H; discriminate H|intros [H _]; lia].
Qed.

(** The sample sheet: 1 right answer in 3. *)
Lemma sheet_result_bounds_witness :
  exists r,
    analyze_single_mcq_sheet abc_sheet abc_key 1 = Returns r /\
    SheetResult.score r <= SheetResult.total_questions r /\
    (0 <= SheetResult.score_percentage r)%Q /\
    (SheetResult.score_percentage r <= 100)%Q /\
    SheetResult.grade r = "F".
Proof.
  eexists. split; [vm_compute; reflexivity|].
  destruct (sheet_result_bounds abc_sheet abc_key 1 _ eq_refl)
    as (Hs & H0 & H100 & HF & _).
  split; [exact Hs|]. split; [exact H0|]. split; [exact H100|].
  apply HF. right. simpl. lia.
Defined.

Lemma all_blank_loop student_answers rest : forall i acc,
  (forall j, j < length rest -> no_answer student_answers (i + j)) ->
  (forall j k, rest !! j = Some k -> key_readable k) ->
  exists ms,
    score_questions student_answers i rest acc
    = Returns (Tally.mk (Tally.correct_answers acc) (Tally.wrong_answers acc)
                 (Tally.unanswered acc + length rest) (Tally.mistakes acc ++ ms)) /\
    numbers ms = seq (i + 1) (length rest) /\
    Forall (fun m => Mistake.type m = Mistake.Unanswered) ms.
Proof.
  induction rest as [|k rest IH]; intros i acc Hno Hkey; simpl.
  - exists []. rewrite Nat.add_0_r, app_nil_r. by destruct acc.
  - pose proof (Hno 0 ltac:(simpl; lia)) as H0. rewrite Nat.add_0_r in H0.
    destruct (proj1 (correct_readable k) (Hkey 0 k eq_refl)) as [c Hc].
    unfold correct_at in Hc. unfold score_question.
    rewrite (no_answer_value _ _ H0). simpl. rewrite Hc. simpl.
    edestruct (IH (S i)) as (ms & -> & Hnum & Hall).
    + intros j Hj. replace (S i + j) with (i + S j) by lia. apply Hno. simpl. lia.
    + intros j k' Hj. by apply (Hkey (S j)).
    + simpl.
      exists (Mistake.mk (i + 1) Mistake.Unanswered "" c
                ("Question " +:+ str_of_nat (i + 1) +:+ " was not answered") :: ms).
      rewrite <- app_assoc. simpl.
      split; [|split].
      * f_equal. f_equal. lia.
      * simpl. rewrite Hnum. by replace (S i + 1) with (S (i + 1)) by lia.
      * by constructor.
Qed.

(** X9. A sheet that gives no answer to any question of the key (an empty
    list, dict or string, or empty strings only), against a key whose dict
    entries all have a string under 'correct_answer', gets score 0, no wrong
    answer, every question unanswered, percentage 0, grade 'F' and one
    'unanswered' mistake per question, in the order of the key. *)
Theorem blank_sheet_is_all_unanswered student_answers answer_key student_id :
  (forall i, i < length answer_key -> no_answer student_answers i) ->
  (forall i k, answer_key !! i = Some k -> key_readable k) ->
  exists r,
    analyze_single_mcq_sheet student_answers answer_key student_id = Returns r /\
    SheetResult.score r = 0 /\
    SheetResult.wrong_answers r = 0 /\
    SheetResult.unanswered r = length answer_key /\
    (SheetResult.score_percentage r == 0)%Q /\
    SheetResult.grade r = "F" /\
    numbers (SheetResult.mistakes r) = seq 1 (length answer_key) /\
    Forall (fun m => Mistake.type m = Mistake.Unanswered) (SheetResult.mistakes r).
Proof.
  intros Hno Hkey.
  destruct (all_blank_loop student_answers answer_key 0 Tally.zero)
    as (ms & Hrun & Hnum & Hall); [done|done|].
  unfold analyze_single_mcq_sheet. rewrite Hrun. simpl.
  destruct (Nat.ltb_spec 0 (length answer_key)) as [Hlt|Hge]; simpl.
  - rewrite truediv_pos by done. simpl. eexists. split; [reflexivity|]. simpl.
    repeat split; try done.
  - eexists. split; [reflexivity|]. simpl. repeat split; try done.
Qed.

(** The empty dict against the mixed key. *)
Lemma blank_sheet_is_all_unanswered_witness :
  exists r,
    analyze_single_mcq_sheet (JObj ∅) mixed_key 1 = Returns r /\
    SheetResult.score r = 0 /\
    SheetResult.wrong_answers r = 0 /\
    SheetResult.unanswered r = 2 /\
    (SheetResult.score_percentage r == 0)%Q /\
    SheetResult.grade r = "F" /\
    numbers (SheetResult.mistakes r) = [1; 2] /\
    Forall (fun m => Mistake.type m = Mistake.Unanswered) (SheetResult.mistakes r).
Proof.
  apply (blank_sheet_is_all_unanswered (JObj ∅) mixed_key 1).
  - intros i _. by left.
  - intros [|[|i]] k Hk; simpl in Hk; try discriminate; injection Hk as <-;
      simpl; [done|by eexists].
Defined.

(** X10. [calculate_grade] is monotone: a higher percentage never gets a
    lower grade, in the order F, D, C-, C, C+, B-, B, B+, A-, A, A+. *)
Theorem calculate_grade_monotone (p q : Q) :
  (p <= q)%Q ->
  grade_rank (calculate_grade p) <= grade_rank (calculate_grade q).
Proof.
  intros Hpq. grade_cases p; grade_cases q;
    first [ by (apply Nat.leb_le; vm_compute) | exfalso; lra ].
Qed.

(** 72.5 and 91. *)
Lemma calculate_grade_monotone_witness :
  grade_rank (calculate_grade (725 # 10)) <= grade_rank (calculate_grade 91).
Proof. apply (calculate_grade_monotone (725 # 10) 91). by vm_compute. Defined.

(* ===================================================================== *)
(** * What a batch summary holds *)
(* ===================================================================== *)

Lemma total_count_insert (m : gmap string nat) (g : string) (n : nat) :
  total_count (<[g := n]> m) + default 0 (m !! g) = total_count m + n.
Proof.
  unfold total_count.
  assert (Hcomm : forall z1 z2 y : nat, z1 + (z2 + y) = z2 + (z1 + y))
    by (intros; lia).
  rewrite <- insert_delete_eq.
  rewrite (map_fold_insert_L (fun _ n acc => n + acc) 0 g n (delete g m));
    [|intros; apply Hcomm|apply lookup_delete_eq].
  destruct (m !! g) as [k|] eqn:E; simpl.
  - rewrite (map_fold_delete_L (fun _ n acc => n + acc) 0 g k m);
      [lia|intros; apply Hcomm|done].
  - rewrite delete_id by done. lia.
Qed.

Lemma total_count_grades (results : list result) : forall m,
  total_count (fold_left count_grade results m) = total_count m + length results.
Proof.
  induction results as [|r results IH]; intros m; simpl; [lia|].
  rewrite IH. unfold count_grade.
  pose proof (total_count_insert m (grade_or_F r)
                (default 0 (m !! grade_or_F r) + 1)).
  lia.
Qed.

(** X11. In the summary of a non-empty batch the counts of
    grade_distribution add up to total_students: every result is counted
    under exactly one grade. *)
Theorem grade_distribution_total results answer_key :
  results <> [] ->
  exists b,
    generate_batch_summary results answer_key = Returns (Summary b) /\
    total_count (BatchSummary.grade_distribution b) = BatchSummary.total_students b.
Proof.
  intros Hne.
  destruct (summary_of_results results answer_key Hne) as (hi & lo & _ & _ & ->).
  eexists. split; [reflexivity|]. simpl.
  unfold grade_counts. by rewrite total_count_grades.
Qed.

(** The two sample results. *)
Lemma grade_distribution_total_witness :
  exists b,
    generate_batch_summary two_results mixed_key = Returns (Summary b) /\
    total_count (BatchSummary.grade_distribution b) = 2.
Proof.
  destruct (grade_distribution_total two_results mixed_key) as (b & Hb & Ht);
    [discriminate|].
  exists b. split; [exact Hb|]. rewrite Ht.
  pose proof Hb as Hb'. vm_compute in Hb'. by injection Hb' as <-.
Defined.

Lemma count_above_antitone (results : list result) (i j : nat) :
  i <= j ->
  length (filter (fun r => j < score_or_0 r) results)
  <= length (filter (fun r => i < score_or_0 r) results).
Proof.
  intros Hij. induction results as [|r results IH]; simpl; [done|].
  rewrite !filter_cons. repeat case_decide; simpl; lia.
Qed.

Lemma count_above_positive (results : list result) (i : nat) :
  0 < length (filter (fun r => i < score_or_0 r) results)
  <-> exists r, r ∈ results /\ i < score_or_0 r.
Proof.
  split.
  - intros H. destruct (filter _ results) as [|r l] eqn:E; simpl in H; [lia|].
    assert (Hr : r ∈ filter (fun r => i < score_or_0 r) results)
      by (rewrite E; left).
    apply list_elem_of_filter in Hr as [Hi Hr]. by exists r.
  - intros (r & Hr & Hi).
    assert (Hin : r ∈ filter (fun r => i < score_or_0 r) results)
      by by apply list_elem_of_filter.
    destruct (filter _ results); simpl; [by apply elem_of_nil in Hin|lia].
Qed.

(** X12. In the summary of a non-empty batch, every entry of
    question_analysis has correct_responses + incorrect_responses =
    total_students and a success_rate between 0 and 100; correct_responses
    never grows from a question to a later one, and it is positive exactly
    for the questions whose index is below highest_score: with the
    position-based count, the questions from highest_score + 1 on are
    reported as answered by nobody. *)
Theorem question_analysis_shape results answer_key :
  results <> [] ->
  exists b,
    generate_batch_summary results answer_key = Returns (Summary b) /\
    (forall i q,
       BatchSummary.question_analysis b !! i = Some q ->
       QuestionStat.correct_responses q + QuestionStat.incorrect_responses q
         = BatchSummary.total_students b /\
       (0 <= QuestionStat.success_rate q)%Q /\
       (QuestionStat.success_rate q <= 100)%Q /\
       (0 < QuestionStat.correct_responses q
        <-> i < BatchSummary.highest_score b)) /\
    (forall i j q q',
       i <= j ->
       BatchSummary.question_analysis b !! i = Some q ->
       BatchSummary.question_analysis b !! j = Some q' ->
       QuestionStat.correct_responses q' <= QuestionStat.correct_responses q).
Proof.
  intros Hne.
  assert (Hlen : 0 < length results) by (destruct results; simpl; [done|lia]).
  assert (Hscores : map score_or_0 results <> []) by (by destruct results).
  destruct (summary_of_results results answer_key Hne) as (hi & lo & Hhi & _ & ->).
  destruct (max_spec _ Hscores) as (hi' & Hhi' & Hin & Hall).
  rewrite Hhi in Hhi'. injection Hhi' as <-.
  eexists. split; [reflexivity|]. simpl.
  assert (Hq : forall i q,
            map (stat_of results) (seq 0 (length answer_key)) !! i = Some q ->
            q = stat_of results i).
  { intros i q H. rewrite list_lookup_fmap in H.
    destruct (seq 0 (length answer_key) !! i) as [n|] eqn:E; simpl in H; [|done].
    apply lookup_seq in E as [-> _]. by injection H as <-. }
  split.
  - intros i q H. apply Hq in H as ->. unfold stat_of. simpl.
    set (c := length (filter (fun r => i < score_or_0 r) results)).
    assert (Hc : c <= length results) by apply length_filter.
    destruct (percent_between c (length results) Hc Hlen) as [H0 H100].
    destruct (round2_between _ 0 100 H0 H100) as [Hr0 Hr100].
    split; [lia|]. split; [done|]. split; [done|].
    unfold c. rewrite count_above_positive. split.
    + intros (r & Hr & Hi).
      assert (Hs : score_or_0 r ∈ map score_or_0 results)
        by (apply list_elem_of_fmap; by exists r).
      apply (proj1 (Forall_forall _ _) Hall) in Hs. lia.
    + intros Hi. apply list_elem_of_fmap in Hin as (r & -> & Hr). by exists r.
  - intros i j q q' Hij H H'. apply Hq in H as ->. apply Hq in H' as ->.
    simpl. by apply count_above_antitone.
Qed.

(** The two sample results, scoring 2 and 1. *)
Lemma question_analysis_shape_witness :
  exists b q1 q2,
    generate_batch_summary two_results mixed_key = Returns (Summary b) /\
    BatchSummary.question_analysis b !! 0 = Some q1 /\
    BatchSummary.question_analysis b !! 1 = Some q2 /\
    QuestionStat.correct_responses q2 <= QuestionStat.correct_responses q1 /\
    QuestionStat.correct_responses q2 + QuestionStat.incorrect_responses q2 = 2.
Proof.
  destruct (question_analysis_shape two_results mixed_key)
    as (b & Hb & Hall & Hmono); [discriminate|].
  pose proof Hb as Hb'. vm_compute in Hb'. injection Hb' as Hb'.
  assert (H0 : exists q, BatchSummary.question_analysis b !! 0 = Some q)
    by (rewrite <- Hb'; by eexists).
  assert (H1 : exists q, BatchSummary.question_analysis b !! 1 = Some q)
    by (rewrite <- Hb'; by eexists).
  destruct H0 as [q1 H0]. destruct H1 as [q2 H1].
  exists b, q1, q2. split; [exact Hb|]. split; [exact H0|]. split; [exact H1|].
  split.
  - apply (Hmono 0 1 q1 q2); [lia|exact H0|exact H1].
  - destruct (Hall 1 q2 H1) as (Hsum & _). rewrite Hsum. by rewrite <- Hb'.
Defined.

Lemma sum_list_bounds (l : list nat) (lo hi : nat) :
  Forall (fun x => lo <= x) l -> Forall (fun x => x <= hi) l ->
  lo * length l <= sum_list l /\ sum_list l <= hi * length l.
Proof.
  induction l as [|x l IH]; simpl; intros Hlo Hhi; [lia|].
  apply Forall_cons in Hlo as [Hx Hlo]. apply Forall_cons in Hhi as [Hx' Hhi].
  destruct (IH Hlo Hhi). lia.
Qed.

Lemma mean_between (l : list nat) (lo hi : nat) :
  l <> [] ->
  Forall (fun x => lo <= x) l -> Forall (fun x => x <= hi) l ->
  (of_nat lo <= mean l)%Q /\ (mean l <= of_nat hi)%Q.
Proof.
  intros Hne Hlo Hhi.
  assert (Hlen : 0 < length l) by (destruct l; simpl; [done|lia]).
  pose proof (of_nat_0_lt _ Hlen) as Hpos.
  destruct (sum_list_bounds l lo hi Hlo Hhi) as [H1 H2].
  apply of_nat_le in H1, H2. rewrite of_nat_mul in H1, H2.
  unfold mean. split.
  - by apply Qle_shift_div_l.
  - by apply Qle_shift_div_r.
Qed.

(** X13. In the summary of a non-empty batch, lowest_score <=
    average_score <= highest_score, the average being the rounded one of
    the summary. *)
Theorem average_between_extremes results answer_key :
  results <> [] ->
  exists b,
    generate_batch_summary results answer_key = Returns (Summary b) /\
    BatchSummary.lowest_score b <= BatchSummary.highest_score b /\
    (of_nat (BatchSummary.lowest_score b) <= BatchSummary.average_score b)%Q /\
    (BatchSummary.average_score b <= of_nat (BatchSummary.highest_score b))%Q.
Proof.
  intros Hne.
  assert (Hscores : map score_or_0 results <> []) by (by destruct results).
  destruct (summary_of_results results answer_key Hne) as (hi & lo & Hhi & Hlo & ->).
  destruct (max_spec _ Hscores) as (hi' & Hhi' & Hin & Hall).
  destruct (min_spec _ Hscores) as (lo' & Hlo' & Hin' & Hall').
  rewrite Hhi in Hhi'. injection Hhi' as <-.
  rewrite Hlo in Hlo'. injection Hlo' as <-.
  eexists. split; [reflexivity|]. simpl.
  split; [by apply (proj1 (Forall_forall _ _) Hall)|].
  destruct (mean_between _ lo hi Hscores Hall' Hall) as [H1 H2].
  by apply (round2_between _ (Z.of_nat lo) (Z.of_nat hi)).
Qed.

(** The two sample results: 1 <= 1.5 <= 2. *)
Lemma average_between_extremes_witness :
  exists b,
    generate_batch_summary two_results mixed_key = Returns (Summary b) /\
    BatchSummary.lowest_score b <= BatchSummary.highest_score b /\
    (of_nat (BatchSummary.lowest_score b) <= BatchSummary.average_score b)%Q /\
    (BatchSummary.average_score b <= of_nat (BatchSummary.highest_score b))%Q.
Proof. apply (average_between_extremes two_results mixed_key). discriminate. Defined.

(* ===================================================================== *)
(** * What the batch endpoint answers *)
(* ===================================================================== *)

Lemma get_mcq_limit_le (plan : string) : get_mcq_limit plan <= 500.
Proof.
  rewrite get_mcq_limit_table. unfold table_limit. repeat case_decide; lia.
Qed.

(** A request that does not pass the first checks is answered 400 and
    nothing is scored. *)
Lemma analyze_mcq_batch_invalid analysis_id timestamp data :
  (forall answer_key sheets, ~ valid_batch data answer_key sheets) ->
  exists message,
    analyze_mcq_batch analysis_id timestamp data = (Error400 message, []).
Proof.
  intros Hinv. unfold analyze_mcq_batch.
  destruct (Request.answer_key_id data) as [kid|] eqn:Hid; [|by eexists].
  destruct (Request.student_answers data) as [sa|] eqn:Hsa; [|by eexists].
  destruct (Request.answer_key data) as [key|] eqn:Hkey; simpl; [|by eexists].
  destruct key as [|k key]; [by eexists|].
  destruct sa as [| | | | sheets |]; try by eexists.
  exfalso. apply (Hinv (k :: key) sheets).
  unfold valid_batch. rewrite Hid, Hsa, Hkey. by repeat split.
Qed.

Lemma valid_batch_dec data :
  (exists answer_key sheets, valid_batch data answer_key sheets)
  \/ (forall answer_key sheets, ~ valid_batch data answer_key sheets).
Proof.
  unfold valid_batch.
  destruct (Request.answer_key_id data) as [kid|];
    [|right; intros k s ([x Hx] & _); done].
  destruct (Request.student_answers data) as [sa|];
    [|right; intros k s (_ & H & _); done].
  destruct (Request.answer_key data) as [key|];
    [|right; intros k s (_ & _ & H & _); done].
  destruct key as [|k key];
    [right; intros k s (_ & _ & H & Hne); by injection H as <-|].
  destruct sa as [| | | | sheets |];
    try (right; intros k' s' (_ & H & _); discriminate H).
  left. exists (k :: key), sheets. by repeat split.
Qed.


Lemma score_sheet_student_id answer_key j sheet :
  get_student_id (score_sheet answer_key j sheet) = j + 1.
Proof.
  unfold score_sheet.
  destruct (analyze_single_mcq_sheet sheet answer_key (j + 1)) as [r|e] eqn:E;
    simpl; [|done].
  by apply analyze_returns in E as (acc & pct & _ & ->).
Qed.

Lemma scored_batch_ids answer_key sheets :
  get_student_id <$> scored_batch answer_key sheets = seq 1 (length sheets).
Proof.
  unfold scored_batch. rewrite fmap_imap.
  rewrite (imap_ext _ (fun j _ => j + 1))
    by (intros j sheet _; apply score_sheet_student_id).
  rewrite (imap_seq_0 sheets (fun j => j + 1)).
  rewrite <- fmap_S_seq. apply list_fmap_ext. intros _ j _. lia.
Qed.

(** X15. On a request that passes the first checks and is within its limit
    the endpoint answers 200 with one result per submitted sheet, in the
    order of the sheets: the student ids are 1, 2, ..., n,
    total_sheets_analyzed is n, every sheet is scored exactly once, the
    summary is the one of these results, and the answer_key_id of the
    request is echoed. *)
Theorem batch_results_in_order analysis_id timestamp data answer_key sheets :
  valid_batch data answer_key sheets ->
  length sheets <= get_mcq_limit (plan_of data) ->
  exists body,
    analyze_mcq_batch analysis_id timestamp data
    = (Ok200 body, seq 1 (length sheets)) /\
    BatchResponse.total_sheets_analyzed body = length sheets /\
    length (BatchResponse.individual_results body) = length sheets /\
    get_student_id <$> BatchResponse.individual_results body
    = seq 1 (length sheets) /\
    generate_batch_summary (BatchResponse.individual_results body) answer_key
    = Returns (BatchResponse.summary body) /\
    Request.answer_key_id data = Some (BatchResponse.answer_key_id body).
Proof.
  intros Hvalid Hlimit.
  rewrite (analyze_mcq_batch_valid _ _ _ _ _ Hvalid).
  apply Nat.ltb_ge in Hlimit as ->.
  destruct (generate_batch_summary (scored_batch answer_key sheets) answer_key)
    as [s|e] eqn:Hs.
  - eexists. split; [reflexivity|]. simpl.
    assert (Hlen : length (scored_batch answer_key sheets) = length sheets)
      by apply length_imap.
    split; [done|]. split; [done|]. split; [apply scored_batch_ids|].
    split; [done|]. destruct Hvalid as ([kid ->] & _). done.
  - destruct (summary_returns (scored_batch answer_key sheets) answer_key)
      as [s Hs']. congruence.
Qed.

(** The request with a [null] sheet in front of the sample sheet. *)
Lemma batch_results_in_order_witness :
  exists body,
    analyze_mcq_batch "id" "now" spoiled_request = (Ok200 body, [1; 2]) /\
    BatchResponse.total_sheets_analyzed body = 2 /\
    length (BatchResponse.individual_results body) = 2 /\
    get_student_id <$> BatchResponse.individual_results body = [1; 2] /\
    generate_batch_summary (BatchResponse.individual_results body) abc_key
    = Returns (BatchResponse.summary body) /\
    Request.answer_key_id spoiled_request = Some (BatchResponse.answer_key_id body).
Proof.
  apply (batch_results_in_order "id" "now" spoiled_request abc_key [JNull; abc_sheet]).
  - repeat split; [by eexists|discriminate].
  - vm_compute. lia.
Defined.

(** X16. Whatever the request, the endpoint scores at most as many sheets
    as the limit of the request's plan allows, which is never more than
    500; on the free and basic plans, on an unknown plan and without a plan
    the limit is 0 and no sheet is ever scored. *)
Theorem scored_sheets_within_limit analysis_id timestamp data :
  length (snd (analyze_mcq_batch analysis_id timestamp data))
    <= get_mcq_limit (plan_of data) /\
  get_mcq_limit (plan_of data) <= 500 /\
  get_mcq_limit "free" = 0 /\
  get_mcq_limit "basic" = 0 /\
  (Request.user_plan data = None -> get_mcq_limit (plan_of data) = 0).
Proof.
  split; [|split; [apply get_mcq_limit_le|]].
  - destruct (valid_batch_dec data) as [(answer_key & sheets & Hvalid)|Hinv].
    + rewrite (analyze_mcq_batch_valid _ _ _ _ _ Hvalid).
      destruct (Nat.ltb_spec (get_mcq_limit (plan_of data)) (length sheets));
        simpl; [lia|].
      destruct (generate_batch_summary _ _); simpl; by rewrite length_seq.
    + destruct (analyze_mcq_batch_invalid analysis_id timestamp data Hinv)
        as [message ->]. simpl. lia.
  - split; [done|]. split; [done|]. unfold plan_of. by intros ->.
Qed.

Lemma score_sheet_bound answer_key j sheet :
  score_or_0 (score_sheet answer_key j sheet) <= length answer_key.
Proof.
  unfold score_sheet, score_or_0.
  destruct (analyze_single_mcq_sheet sheet answer_key (j + 1)) as [r|e] eqn:E;
    simpl; [|lia].
  destruct (analyze_scored _ _ _ _ E) as [Htot _ _ _ _ _ _ _ _]. simpl in Htot.
  apply analyze_returns in E as (acc & pct & _ & ->). simpl in *. lia.
Qed.

Lemma scored_batch_bound answer_key sheets :
  Forall (fun x => x <= length answer_key)
    (map score_or_0 (scored_batch answer_key sheets)).
Proof.
  apply Forall_forall. intros x Hx.
  apply list_elem_of_fmap in Hx as (r & -> & Hr).
  apply elem_of_lookup_imap_1 in Hr as (j & sheet & -> & _).
  apply score_sheet_bound.
Qed.

(** X17. On an accepted batch that is not empty, every result has a score
    of at most the length of the answer key (0 for a sheet whose scoring
    raised), so that in the summary highest_score <= total_questions and
    average_percentage lies between 0 and 100. *)
Theorem batch_scores_within_key analysis_id timestamp data answer_key sheets :
  valid_batch data answer_key sheets ->
  length sheets <= get_mcq_limit (plan_of data) ->
  sheets <> [] ->
  exists body b,
    fst (analyze_mcq_batch analysis_id timestamp data) = Ok200 body /\
    BatchResponse.summary body = Summary b /\
    Forall (fun r => score_or_0 r <= length answer_key)
      (BatchResponse.individual_results body) /\
    BatchSummary.total_questions b = length answer_key /\
    BatchSummary.highest_score b <= BatchSummary.total_questions b /\
    (0 <= BatchSummary.average_percentage b)%Q /\
    (BatchSummary.average_percentage b <= 100)%Q.
Proof.
  intros Hvalid Hlimit Hne.
  rewrite (analyze_mcq_batch_valid _ _ _ _ _ Hvalid).
  apply Nat.ltb_ge in Hlimit as ->.
  set (results := scored_batch answer_key sheets).
  assert (Hres : results <> []).
  { intros H. apply (f_equal length) in H. unfold results, scored_batch in H.
    rewrite length_imap in H. by destruct sheets. }
  assert (Hscores : map score_or_0 results <> []) by (by destruct results).
  pose proof (scored_batch_bound answer_key sheets) as Hbound. fold results in Hbound.
  destruct (summary_of_results results answer_key Hres)
    as (hi & lo & Hhi & _ & ->). simpl.
  destruct (max_spec _ Hscores) as (hi' & Hhi' & Hin & _).
  rewrite Hhi in Hhi'. injection Hhi' as <-.
  eexists _, _. split; [reflexivity|]. simpl. split; [reflexivity|]. simpl.
  split; [by apply Forall_map in Hbound|]. split; [done|].
  split; [by apply (proj1 (Forall_forall _ _) Hbound)|].
  destruct Hvalid as (_ & _ & _ & Hkey).
  assert (Hlen : 0 < length answer_key) by (destruct answer_key; simpl; [done|lia]).
  destruct (mean_between (map score_or_0 results) 0 (length answer_key))
    as [Hm0 Hm1]; [done|apply Forall_forall; intros; lia|done|].
  change (of_nat 0) with 0%Q in Hm0.
  pose proof (of_nat_0_lt _ Hlen) as Hpos.
  unfold percentage_of. apply Nat.ltb_lt in Hlen as ->.
  apply (round2_between _ 0 100).
  - assert (H : (0 <= mean (map score_or_0 results) / of_nat (length answer_key))%Q)
      by (apply Qle_shift_div_l; [done|lra]).
    change (inject_Z 0) with 0%Q. lra.
  - assert (H : (mean (map score_or_0 results) / of_nat (length answer_key) <= 1)%Q)
      by (apply Qle_shift_div_r; [done|lra]).
    change (inject_Z 100) with 100%Q. lra.
Qed.

(** The request with a [null] sheet in front of the sample sheet. *)
Lemma batch_scores_within_key_witness :
  exists body b,
    fst (analyze_mcq_batch "id" "now" spoiled_request) = Ok200 body /\
    BatchResponse.summary body = Summary b /\
    Forall (fun r => score_or_0 r <= 3) (BatchResponse.individual_results body) /\
    BatchSummary.total_questions b = 3 /\
    BatchSummary.highest_score b <= BatchSummary.total_questions b /\
    (0 <= BatchSummary.average_percentage b)%Q /\
    (BatchSummary.average_percentage b <= 100)%Q.
Proof.
  apply (batch_scores_within_key "id" "now" spoiled_request abc_key [JNull; abc_sheet]).
  - repeat split; [by eexists|discriminate].
  - vm_compute. lia.
  - discriminate.
Defined.

(** X18. A request that passes the first checks with an empty list of
    sheets is accepted on every plan, the plans of limit 0 included: the
    answer is 200 with no result, total_sheets_analyzed 0 and the empty
    summary, and nothing is scored. *)
Theorem empty_batch_is_accepted analysis_id timestamp data answer_key :
  valid_batch data answer_key [] ->
  exists body,
    analyze_mcq_batch analysis_id timestamp data = (Ok200 body, []) /\
    BatchResponse.individual_results body = [] /\
    BatchResponse.total_sheets_analyzed body = 0 /\
    BatchResponse.summary body = EmptySummary.
Proof.
  intros Hvalid. rewrite (analyze_mcq_batch_valid _ _ _ _ _ Hvalid). simpl.
  by eexists.
Qed.

(** The free request without its sheet. *)
Lemma empty_batch_is_accepted_witness :
  exists body,
    analyze_mcq_batch "id" "now" (with_sheets free_request []) = (Ok200 body, []) /\
    BatchResponse.individual_results body = [] /\
    BatchResponse.total_sheets_analyzed body = 0 /\
    BatchResponse.summary body = EmptySummary.
Proof.
  apply (empty_batch_is_accepted "id" "now" (with_sheets free_request []) abc_key).
  repeat split; [by eexists|discriminate].
Defined.

(* ===================================================================== *)
(** * The answer key upload *)
(* ===================================================================== *)

Lemma processable_dec (k : key_entry) : {processable k} + {~ processable k}.
Proof.
  destruct k as [d|shown]; simpl; [|by left].
  destruct (d !! "answer") as [[]|]; simpl; auto.
Defined.

Lemma process_entry_ok i k :
  processable k -> process_entry i k = Returns (processed_of i k).
Proof.
  destruct k as [d|shown]; simpl; [|done].
  unfold processed_of. simpl.
  destruct (d !! "answer") as [[]|]; simpl; done.
Qed.

Lemma process_entry_bad i k :
  ~ processable k -> process_entry i k = Raises AttributeError.
Proof.
  destruct k as [d|shown]; simpl; [|done].
  destruct (d !! "answer") as [[]|]; simpl; done.
Qed.

Lemma process_entries_ok entries : forall i acc,
  Forall processable entries ->
  process_entries i entries acc
  = Returns (acc ++ imap (fun j => processed_of (i + j)) entries).
Proof.
  induction entries as [|k entries IH]; intros i acc Hall; simpl.
  - by rewrite app_nil_r.
  - apply Forall_cons in Hall as [Hk Hall].
    rewrite (process_entry_ok i k Hk). simpl.
    rewrite IH by done. rewrite <- app_assoc. simpl. rewrite Nat.add_0_r.
    do 3 f_equal. apply imap_ext. intros j x _. simpl. f_equal. lia.
Qed.

Lemma process_entries_bad entries : forall i acc,
  ~ Forall processable entries ->
  process_entries i entries acc = Raises AttributeError.
Proof.
  induction entries as [|k entries IH]; intros i acc Hall; simpl.
  - exfalso. by apply Hall.
  - destruct (processable_dec k) as [Hk|Hk].
    + rewrite (process_entry_ok i k Hk). simpl. apply IH.
      intros H. apply Hall. by constructor.
    + by rewrite (process_entry_bad i k Hk).
Qed.

Lemma processable_all_dec (entries : list key_entry) :
  Forall processable entries \/ ~ Forall processable entries.
Proof.
  induction entries as [|k entries [IH|IH]].
  - by left.
  - destruct (processable_dec k) as [Hk|Hk].
    + left. by constructor.
    + right. intros H. by apply Forall_cons in H as [? _].
  - right. intros H. by apply Forall_cons in H as [_ ?].
Qed.

(** The upload of a list of entries that can all be processed. *)
Lemma upload_list_ok answer_key_id timestamp entries subject total_questions :
  Forall processable entries ->
  upload_answer_key answer_key_id timestamp (upload_of entries subject total_questions)
  = Uploaded (UploadResponse.mk answer_key_id (default (JStr "General") subject)
                (length entries) (imap processed_of entries) timestamp
                "Answer key uploaded successfully").
Proof.
  intros Hall. unfold upload_answer_key, upload_of. simpl.
  rewrite process_entries_ok by done. simpl. by rewrite length_imap.
Qed.

(** X19. The upload endpoint answers 200 exactly when the answer key is a
    list all of whose dict entries have a string, or nothing, under
    'answer'. It answers 400 when the key is missing, or is a string or a
    dict; and 500 in the other cases: when the key is null, a boolean or a
    number (its length is taken before it is tested to be a list), and when
    an entry of the list has something else than a string under 'answer'. *)
Theorem upload_answers answer_key_id timestamp data :
  match UploadRequest.answer_key data with
  | None =>
      upload_answer_key answer_key_id timestamp data
      = UploadError400 "Answer key is required"
  | Some (PostedList entries) =>
      (Forall processable entries /\
       exists body, upload_answer_key answer_key_id timestamp data = Uploaded body) \/
      (~ Forall processable entries /\
       upload_answer_key answer_key_id timestamp data = UploadError500 AttributeError)
  | Some (PostedStr _) | Some (PostedDict _) =>
      upload_answer_key answer_key_id timestamp data
      = UploadError400 "Answer key must be a list of answers"
  | Some PostedNull | Some (PostedBool _) | Some (PostedNum _) =>
      upload_answer_key answer_key_id timestamp data = UploadError500 TypeError
  end.
Proof.
  destruct data as [[key|] subject total]; simpl; [|done].
  destruct key as [entries| | | | |]; try done.
  unfold upload_answer_key. simpl.
  destruct (processable_all_dec entries) as [Hall|Hall]; [left|right]; split;
    try done.
  - rewrite process_entries_ok by done. by eexists.
  - by rewrite process_entries_bad.
Qed.

(** X20. An accepted upload returns one processed entry per posted entry,
    in the order of the list: entry i has question_number i + 1, the answer
    text of the posted entry in upper case as correct_answer (the empty
    string for a dict without 'answer'), its explanation (default the empty
    string) and its marks (default 1), and no 'answer' field;
    total_questions is the number of entries, whatever 'total_questions' the
    request gives, and subject defaults to 'General'. *)
Theorem upload_processed_key answer_key_id timestamp entries subject total body :
  upload_answer_key answer_key_id timestamp (upload_of entries subject total)
  = Uploaded body ->
  UploadResponse.answer_key_id body = answer_key_id /\
  UploadResponse.subject body = default (JStr "General") subject /\
  UploadResponse.total_questions body = length entries /\
  length (UploadResponse.processed_key body) = length entries /\
  forall i k, entries !! i = Some k ->
    exists p,
      UploadResponse.processed_key body !! i = Some p /\
      p !! "question_number" = Some (JNum (of_nat (i + 1))) /\
      p !! "correct_answer" = Some (JStr (upper (answer_text k))) /\
      p !! "explanation"
      = Some (match k with
              | KeyDict d => default (JStr "") (d !! "explanation")
              | KeyPlain _ => JStr ""
              end) /\
      p !! "marks"
      = Some (match k with
              | KeyDict d => default (JNum 1) (d !! "marks")
              | KeyPlain _ => JNum 1
              end) /\
      p !! "answer" = None.
Proof.
  intros Hup.
  destruct (processable_all_dec entries) as [Hall|Hall].
  - rewrite upload_list_ok in Hup by done. injection Hup as <-. simpl.
    repeat split; try done; [apply length_imap|].
    intros i k Hk. exists (processed_of i k).
    split; [by rewrite list_lookup_imap, Hk|].
    unfold processed_of. by vm_compute.
  - unfold upload_answer_key, upload_of in Hup. simpl in Hup.
    by rewrite process_entries_bad in Hup.
Qed.

(** The sample upload. *)
Lemma upload_processed_key_witness :
  exists body,
    upload_answer_key "id" "now" upload_request = Uploaded body /\
    UploadResponse.total_questions body = 3 /\
    map (fun p => text_field p "correct_answer") (UploadResponse.processed_key body)
    = [Some "B"; Some ""; Some "C"].
Proof.
  eexists. split; [vm_compute; reflexivity|].
  destruct (upload_processed_key "id" "now" posted_entries None None _ eq_refl)
    as (_ & _ & Htotal & _).
  split; [exact Htotal|]. by vm_compute.
Defined.

Lemma correct_at_processed i k :
  correct_at (KeyDict (processed_of i k)) = Returns (upper (answer_text k)).
Proof.
  unfold correct_at, correct_value, processed_of.
  replace (_ !! "correct_answer") with (Some (JStr (upper (answer_text k))))
    by by vm_compute.
  simpl. by rewrite upper_upper.
Qed.

Lemma uploaded_is_imap answer_key_id timestamp entries subject total body :
  upload_answer_key answer_key_id timestamp (upload_of entries subject total)
  = Uploaded body ->
  Forall processable entries /\
  UploadResponse.processed_key body = imap processed_of entries.
Proof.
  intros Hup. destruct (processable_all_dec entries) as [Hall|Hall].
  - rewrite upload_list_ok in Hup by done. by injection Hup as <-.
  - unfold upload_answer_key, upload_of in Hup. simpl in Hup.
    by rewrite process_entries_bad in Hup.
Qed.

(** X21. The processed key of an accepted upload can be used as the answer
    key of the scorer: every sheet has against it the result it has against
    the plain key of the posted answer texts, so the key never makes the
    scoring raise; for a posted key of plain answers, the result is the one
    against the key as posted. *)
Theorem uploaded_key_scores answer_key_id timestamp entries subject total body :
  upload_answer_key answer_key_id timestamp (upload_of entries subject total)
  = Uploaded body ->
  forall student_answers student_id,
    analyze_single_mcq_sheet student_answers
      (KeyDict <$> UploadResponse.processed_key body) student_id
    = analyze_single_mcq_sheet student_answers
        ((fun k => KeyPlain (answer_text k)) <$> entries) student_id /\
    (Forall (fun k => exists shown, k = KeyPlain shown) entries ->
     analyze_single_mcq_sheet student_answers
       (KeyDict <$> UploadResponse.processed_key body) student_id
     = analyze_single_mcq_sheet student_answers entries student_id).
Proof.
  intros Hup student_answers student_id.
  apply uploaded_is_imap in Hup as [_ ->].
  assert (Hgen : forall keys : list key_entry,
            length keys = length entries ->
            (forall j k k', entries !! j = Some k -> keys !! j = Some k' ->
               correct_at k' = Returns (upper (answer_text k))) ->
            analyze_single_mcq_sheet student_answers
              (KeyDict <$> imap processed_of entries) student_id
            = analyze_single_mcq_sheet student_answers keys student_id).
  { intros keys Hlen Hkeys. apply analyze_ext.
    - by rewrite length_fmap, length_imap.
    - done.
    - intros j p k' Hp Hk'.
      rewrite list_lookup_fmap, list_lookup_imap in Hp.
      destruct (entries !! j) as [k|] eqn:Hk; simpl in Hp; [|done].
      injection Hp as <-. rewrite correct_at_processed.
      symmetry. by apply (Hkeys j k k'). }
  split.
  - apply Hgen; [by rewrite length_fmap|].
    intros j k k' Hk Hk'. rewrite list_lookup_fmap, Hk in Hk'.
    by injection Hk' as <-.
  - intros Hplain. apply Hgen; [done|].
    intros j k k' Hk Hk'. rewrite Hk in Hk'. injection Hk' as <-.
    assert (Hin : k ∈ entries) by (apply list_elem_of_lookup; by exists j).
    by apply (proj1 (Forall_forall _ _) Hplain) in Hin as [shown ->].
Qed.

(** The sample upload, scored by the sheet that answers B, nothing, c. *)
Lemma uploaded_key_scores_witness :
  exists body,
    upload_answer_key "id" "now" upload_request = Uploaded body /\
    analyze_single_mcq_sheet (JArr [JStr "B"; JStr ""; JStr "c"])
      (KeyDict <$> UploadResponse.processed_key body) 1
    = analyze_single_mcq_sheet (JArr [JStr "B"; JStr ""; JStr "c"])
        [KeyPlain "b"; KeyPlain ""; KeyPlain "c"] 1.
Proof.
  eexists. split; [vm_compute; reflexivity|].
  apply (uploaded_key_scores "id" "now" posted_entries None None _ eq_refl).
Defined.

Lemma answer_text_processed i k : answer_text (KeyDict (processed_of i k)) = "".
Proof.
  unfold answer_text, processed_of.
  by replace (_ !! "answer") with (@None json) by by vm_compute.
Qed.

Lemma processable_processed i k : processable (KeyDict (processed_of i k)).
Proof.
  unfold processable, processed_of.
  by replace (_ !! "answer") with (@None json) by by vm_compute.
Qed.

(** No question is counted right against a key whose correct answers are
    all empty. *)
Lemma no_right_answer student_answers answer_key student_id r :
  (forall i k, answer_key !! i = Some k -> correct_at k = Returns "") ->
  analyze_single_mcq_sheet student_answers answer_key student_id = Returns r ->
  SheetResult.score r = 0.
Proof.
  intros Hkey Hrun.
  apply analyze_returns in Hrun as (acc & pct & Hrun & ->). simpl.
  apply (score_questions_keeps student_answers answer_key
           (fun _ a => Tally.correct_answers a = 0)) in Hrun; [done| | |done].
  - intros i k a a' Hk Ha Hstep.
    apply score_question_cases in Hstep
      as (raw & s & c & _ & _ & Hc &
          [(_ & ->) | [(Hne & Hsc & ->) | (_ & _ & text & ->)]]); simpl; try done.
    apply Hkey in Hk. unfold correct_at in Hk. congruence.
  - by intros j k Hj.
Qed.

(** X22. The upload is not idempotent: posting the processed key of an
    accepted upload as an answer key again is accepted, but the processed
    entries have no 'answer' field, so every correct_answer of the second
    processed key is the empty string, and every sheet that can be scored
    against it gets score 0. *)
Theorem processed_key_posted_again answer_key_id timestamp entries subject total body :
  upload_answer_key answer_key_id timestamp (upload_of entries subject total)
  = Uploaded body ->
  forall answer_key_id' timestamp' subject' total',
  exists body',
    upload_answer_key answer_key_id' timestamp'
      (upload_of (KeyDict <$> UploadResponse.processed_key body) subject' total')
    = Uploaded body' /\
    length (UploadResponse.processed_key body') = length entries /\
    (forall p, p ∈ UploadResponse.processed_key body' ->
       p !! "correct_answer" = Some (JStr "")) /\
    (forall student_answers student_id r,
       analyze_single_mcq_sheet student_answers
         (KeyDict <$> UploadResponse.processed_key body') student_id = Returns r ->
       SheetResult.score r = 0).
Proof.
  intros Hup answer_key_id' timestamp' subject' total'.
  apply uploaded_is_imap in Hup as [_ ->].
  set (again := KeyDict <$> imap processed_of entries).
  assert (Hagain : forall j k, again !! j = Some k ->
            exists k0, k = KeyDict (processed_of j k0)).
  { intros j k Hk. unfold again in Hk.
    rewrite list_lookup_fmap, list_lookup_imap in Hk.
    destruct (entries !! j) as [k0|]; simpl in Hk; [|done].
    injection Hk as <-. by exists k0. }
  assert (Hall : Forall processable again).
  { apply Forall_forall. intros k Hk.
    apply list_elem_of_lookup in Hk as [j Hj].
    apply Hagain in Hj as [k0 ->]. apply processable_processed. }
  rewrite upload_list_ok by done. eexists. split; [reflexivity|]. simpl.
  assert (Hsecond : forall j p, imap processed_of again !! j = Some p ->
            p !! "correct_answer" = Some (JStr "") /\
            correct_at (KeyDict p) = Returns "").
  { intros j p Hp. rewrite list_lookup_imap in Hp.
    destruct (again !! j) as [k|] eqn:Hk; simpl in Hp; [|done].
    injection Hp as <-. apply Hagain in Hk as [k0 ->].
    pose proof (correct_at_processed j (KeyDict (processed_of j k0))) as Hc.
    rewrite answer_text_processed in Hc. split; [|exact Hc].
    unfold processed_of at 1. rewrite answer_text_processed. by vm_compute. }
  split; [|split].
  - unfold again. by rewrite length_imap, length_fmap, length_imap.
  - intros p Hp. apply list_elem_of_lookup in Hp as [j Hj].
    by apply Hsecond in Hj as [? _].
  - intros student_answers student_id r. apply no_right_answer.
    intros i k Hk. rewrite list_lookup_fmap in Hk.
    destruct (imap processed_of again !! i) as [p|] eqn:Hp; simpl in Hk; [|done].
    injection Hk as <-. by apply Hsecond in Hp as [_ ?].
Qed.

(** The sample upload, posted again. *)
Lemma processed_key_posted_again_witness :
  exists body body',
    upload_answer_key "id" "now" upload_request = Uploaded body /\
    upload_answer_key "id2" "later"
      (upload_of (KeyDict <$> UploadResponse.processed_key body) None None)
    = Uploaded body' /\
    map (fun p => text_field p "correct_answer") (UploadResponse.processed_key body')
    = [Some ""; Some ""; Some ""].
Proof.
  eexists. 
  destruct (processed_key_posted_again "id" "now" posted_entries None None _ eq_refl
              "id2" "later" None None) as (body' & Hup' & _).
  exists body'. split; [vm_compute; reflexivity|]. split; [exact Hup'|].
  pose proof Hup' as H. vm_compute in H. by injection H as <-.
Defined.

(** X23. Of a dict entry of the key the scorer reads the 'correct_answer'
    field and nothing else: two keys of dict entries that agree on that
    field, whatever their marks, explanations and other fields, give every
    sheet the same result; in particular the marks do not weigh in the
    score. *)
Theorem only_correct_answer_is_read student_answers answer_key answer_key' student_id :
  Forall2
    (fun k k' => exists d d',
       k = KeyDict d /\ k' = KeyDict d' /\
       d !! "correct_answer" = d' !! "correct_answer")
    answer_key answer_key' ->
  analyze_single_mcq_sheet student_answers answer_key student_id
  = analyze_single_mcq_sheet student_answers answer_key' student_id.
Proof.
  intros Hsame. apply analyze_ext.
  - by apply Forall2_length in Hsame.
  - done.
  - intros j k k' Hk Hk'.
    destruct (Forall2_lookup_lr _ _ _ _ _ _ Hsame Hk Hk')
      as (d & d' & -> & -> & Heq).
    unfold correct_at. simpl. rewrite <- Heq.
    by destruct (d !! "correct_answer") as [v|].
Qed.

(** Two one-question keys that differ in their marks. *)
Lemma only_correct_answer_is_read_witness :
  analyze_single_mcq_sheet (JArr [JStr "a"])
    [KeyDict {[ "correct_answer" := JStr "A"; "marks" := JNum 5 ]}] 1
  = analyze_single_mcq_sheet (JArr [JStr "a"])
      [KeyDict {[ "correct_answer" := JStr "A" ]}] 1.
Proof.
  apply only_correct_answer_is_read.
  constructor; [|constructor].
  eexists _, _. split; [reflexivity|]. split; [reflexivity|]. by vm_compute.
Defined.
